(** * gap-analyzer: the /search and /history handlers

    A shallow embedding of the three revisions of the Express server
    (the revision without a store, the single-probability revision of
    [src/index.js], and the four-sub-score revision), with the external
    collaborators (language model, HTTP client, HTML extractor, JSON
    parser, SQLite engine) taken as an environment of call outcomes. *)

From Stdlib Require Import List ZArith NArith Bool Ascii String Lia.
From Stdlib Require Import Permutation Sorted DecimalString.
Import ListNotations.

Local Set Warnings "-register-all".

(** ** JavaScript strings

    A JavaScript string is a sequence of UTF-16 code units. *)

Definition jsstring : Type := list N.

Definition lit (s : string) : jsstring :=
  List.map N_of_ascii (list_ascii_of_string s).

Definition LF : N := 10%N.
Definition DQ : N := 34%N.
Definition BACKTICK : N := 96%N.

Fixpoint str_eqb (a b : jsstring) : bool :=
  match a, b with
  | [], [] => true
  | x :: a', y :: b' => N.eqb x y && str_eqb a' b'
  | _, _ => false
  end.

(** WhiteSpace and LineTerminator code points of ECMAScript, the set that
    [String.prototype.trim] removes. *)
Definition is_ws (c : N) : bool :=
  ((9 <=? c) && (c <=? 13) || (c =? 32) || (c =? 160) || (c =? 5760)
   || (8192 <=? c) && (c <=? 8202) || (c =? 8232) || (c =? 8233)
   || (c =? 8239) || (c =? 8287) || (c =? 12288) || (c =? 65279))%N.

Fixpoint trimStart (s : jsstring) : jsstring :=
  match s with
  | [] => []
  | c :: s' => if is_ws c then trimStart s' else s
  end.

Definition trimEnd (s : jsstring) : jsstring := rev (trimStart (rev s)).

(** [s.trim()] *)
Definition trim (s : jsstring) : jsstring := trimEnd (trimStart s).

(** [s.split(sep)] for a one-code-unit separator: [n] separators give
    [n + 1] pieces, and the empty string gives one empty piece. *)
Fixpoint split (sep : N) (s : jsstring) : list jsstring :=
  match s with
  | [] => [[]]
  | c :: s' =>
      if N.eqb c sep then [] :: split sep s'
      else match split sep s' with
           | [] => [[c]]
           | piece :: pieces => (c :: piece) :: pieces
           end
  end.

Fixpoint startsWith (pat s : jsstring) : bool :=
  match pat, s with
  | [], _ => true
  | p :: pat', c :: s' => N.eqb p c && startsWith pat' s'
  | _ :: _, [] => false
  end.

(** [s.replace(/pat/g, rep)] for a literal, non-empty pattern: matches are
    taken leftmost and do not overlap.  [skip] counts the code units of the
    current match that are still to be consumed. *)
Fixpoint replace_from (pat rep : jsstring) (skip : nat) (s : jsstring)
  : jsstring :=
  match s with
  | [] => []
  | c :: s' =>
      match skip with
      | S k => replace_from pat rep k s'
      | O =>
          if startsWith pat s
          then rep ++ replace_from pat rep (Nat.pred (List.length pat)) s'
          else c :: replace_from pat rep O s'
      end
  end.

Definition replaceAll (pat rep s : jsstring) : jsstring :=
  replace_from pat rep O s.

(** [s.replace(/^r\//i, '')]: the pattern is anchored at the start, so at
    most one occurrence is removed; under the [i] flag the letter matches
    in either case. *)
Definition strip_r_slash (s : jsstring) : jsstring :=
  match s with
  | c1 :: c2 :: rest =>
      if ((c1 =? 114) || (c1 =? 82))%N && (c2 =? 47)%N then rest else s
  | _ => s
  end.

(** ** JavaScript values, as far as [JSON.parse] produces them

    [JNum] carries integer-valued numbers; on integers of magnitude below
    2^51 the double arithmetic of the handlers is exact, which is the
    range this development computes in. *)

Inductive JsValue : Type :=
| JUndefined
| JNull
| JBool (b : bool)
| JNum (z : Z)
| JStr (s : jsstring)
| JArr (items : list JsValue)
| JObj (fields : list (jsstring * JsValue)).

(** ToBoolean *)
Definition truthy (v : JsValue) : bool :=
  match v with
  | JUndefined | JNull => false
  | JBool b => b
  | JNum z => negb (z =? 0)%Z
  | JStr s => match s with [] => false | _ :: _ => true end
  | JArr _ | JObj _ => true
  end.

Record JsError : Type := mkError { message : jsstring }.

Inductive Outcome (A : Type) : Type :=
| Ok (a : A)
| Throw (e : JsError).
Arguments Ok {A} a.
Arguments Throw {A} e.

Fixpoint lookup_field (k : jsstring) (fields : list (jsstring * JsValue))
  : JsValue :=
  match fields with
  | [] => JUndefined
  | (k', v) :: rest => if str_eqb k k' then v else lookup_field k rest
  end.

(** [v.k] for a name [k] that no primitive wrapper defines: reading a
    property of [null] or [undefined] throws a TypeError, an absent
    property reads as [undefined]. *)
Definition get_prop (v : JsValue) (k : jsstring) : Outcome JsValue :=
  match v with
  | JUndefined =>
      Throw (mkError (lit "Cannot read properties of undefined (reading '"
                        ++ k ++ lit "')"))
  | JNull =>
      Throw (mkError (lit "Cannot read properties of null (reading '"
                        ++ k ++ lit "')"))
  | JObj fields => Ok (lookup_field k fields)
  | _ => Ok JUndefined
  end.

(** ** [Number.prototype.toFixed(1)] on a quarter of an integer

    The sum [S] of integer sub-scores is exact, and so is [S / 4]; for such
    a value [x], [x.toFixed(1)] takes the integer [n] for which [n / 10 - x]
    is closest to zero, the larger [n] on a tie, and prints it with one
    digit after the point, a minus sign first when [x < 0]. *)

Definition tenths_of_quarters (S : Z) : Z := (5 * Z.abs S + 1) / 2.

Definition decimal (n : Z) : jsstring :=
  lit (NilZero.string_of_uint (N.to_uint (Z.to_N n))).

Definition toFixed1_of_quarters (S : Z) : jsstring :=
  let n := tenths_of_quarters S in
  (if (S <? 0)%Z then lit "-" else [])
    ++ decimal (n / 10) ++ lit "." ++ decimal (n mod 10).

(** ** The result store

    One table; a row keeps the parameters bound by the INSERT in column
    order ([subreddit], [idea], then the score columns), the AUTOINCREMENT
    key and the CURRENT_TIMESTAMP default, in seconds. *)

Record Row : Type := mkRow {
  id : Z;
  cols : list JsValue;
  createdAt : Z
}.

Record Store : Type := mkStore {
  rows : list Row;
  last_id : Z
}.

Definition empty_store : Store := mkStore [] 0.

Definition insert_row (params : list JsValue) (now : Z) (st : Store) : Store :=
  mkStore (rows st ++ [mkRow (last_id st + 1) params now]) (last_id st + 1).

Definition subreddit (r : Row) : JsValue := nth 0 (cols r) JUndefined.
Definition idea (r : Row) : JsValue := nth 1 (cols r) JUndefined.

(** ** The environment

    Every call to an external collaborator has an outcome, a value or a
    thrown error.  The calls made for the topic at position [i] of the
    loop are keyed by [i], so that two topics with the same name may still
    be answered differently. *)

Inductive Call : Type :=
| SuggestCall
| TopicCall (i : nat).

(** The object [model.generateContent] resolves to; [response.text()] may
    itself throw (a blocked response has no text). *)
Record GenerateContentResult : Type := mkGen {
  response_text : Outcome jsstring
}.

Record Env : Type := mkEnv {
  (** [await model.generateContent(prompt)] *)
  generateContent : Call -> jsstring -> Outcome GenerateContentResult;
  (** [(await axios.get(url)).data] *)
  axios_get : nat -> jsstring -> Outcome JsValue;
  (** [cheerio.load(html)('body').text()] *)
  cheerio_body_text : JsValue -> Outcome jsstring;
  JSON_parse : jsstring -> Outcome JsValue;
  (** [((p + a + m + f) / 4).toFixed(1)] on operands that are not all
      numbers, where [+] and [/] coerce. *)
  coerced_overall :
    JsValue -> JsValue -> JsValue -> JsValue -> Outcome jsstring;
  (** the engine running the INSERT of [db.run]: the timestamp it stamps
      the row with, or the error the promise rejects with *)
  sqlite_insert : nat -> list JsValue -> Outcome Z
}.

(** ** Handler state and control flow

    The handler's mutable state is the [results] array and the database;
    a computation ends in a value or in a thrown error, and what it wrote
    before throwing stays written. *)

Definition Entry : Type := list (string * JsValue).

Record HState : Type := mkState {
  results : list Entry;
  db : Store
}.

Definition M (A : Type) : Type := HState -> Outcome A * HState.

Definition ret {A} (a : A) : M A := fun s => (Ok a, s).

Definition bind {A B} (m : M A) (k : A -> M B) : M B :=
  fun s =>
    match m s with
    | (Ok a, s') => k a s'
    | (Throw e, s') => (Throw e, s')
    end.

Notation "x <- m ;; k" := (bind m (fun x => k))
  (at level 61, m at next level, right associativity).
Notation "m ;;; k" := (bind m (fun _ => k))
  (at level 61, right associativity).

(** the outcome of an awaited external call *)
Definition await {A} (o : Outcome A) : M A := fun s => (o, s).

(** [try { body } catch (e) { handler }] *)
Definition try_catch {A} (body : M A) (handler : JsError -> M A) : M A :=
  fun s =>
    match body s with
    | (Ok a, s') => (Ok a, s')
    | (Throw e, s') => handler e s'
    end.

(** [results.push(entry)] *)
Definition push (entry : Entry) : M unit :=
  fun s => (Ok tt, mkState (results s ++ [entry]) (db s)).

(** [await db.run('INSERT INTO results (...) VALUES (...)', params)] *)
Definition db_run (env : Env) (i : nat) (params : list JsValue) : M unit :=
  fun s =>
    match sqlite_insert env i params with
    | Ok now => (Ok tt, mkState (results s) (insert_row params now (db s)))
    | Throw e => (Throw e, s)
    end.

(** [for (const topic of topics) body], with the position counted *)
Fixpoint for_of (body : nat -> jsstring -> M unit) (i : nat)
  (topics : list jsstring) : M unit :=
  match topics with
  | [] => ret tt
  | topic :: rest => body i topic ;;; for_of body (S i) rest
  end.

(** ** The /search handler *)

(** The three revisions of the server. *)
Inductive Variant : Type :=
| NoStore    (** probability, nothing persisted *)
| Simple     (** probability, persisted: [src/index.js] *)
| Extended.  (** four sub-scores and an overall score, persisted *)

Definition quoted (s : string) : jsstring := DQ :: lit s ++ [DQ].

Definition indent (n : nat) : jsstring := repeat 32%N n.

(** a line of the template literal, at its twelve columns of indentation *)
Definition tline (l : jsstring) : jsstring := LF :: indent 12 ++ l.

Definition prompt : jsstring :=
  lit "Find 3 diverse and popular subreddits where people discuss problems, frustrations, or unmet needs. Provide only the name of each subreddit, one per line (e.g., 'personalfinance').".

Definition analysisPrompt (v : Variant) (sanitizedTopic threadContent : jsstring)
  : jsstring :=
  tline (lit "Analyze the following content from the subreddit '"
           ++ sanitizedTopic ++ lit "'. ")
  ++ match v with
     | Extended =>
         tline (lit "Act as a practical business analyst. Based on the content, provide:")
         ++ tline (lit "1. A single, concrete business idea.")
         ++ tline (lit "2. A score from 0-100 for " ++ quoted "Pain Point Severity" ++ lit ".")
         ++ tline (lit "3. A score from 0-100 for " ++ quoted "Audience Scale" ++ lit ".")
         ++ tline (lit "4. A score from 0-100 for " ++ quoted "Monetization Potential" ++ lit ".")
         ++ tline (lit "5. A score from 0-100 for " ++ quoted "Execution Feasibility"
                     ++ lit " (where 100 is very feasible).")
         ++ tline []
         ++ tline (lit "Return ONLY a single, raw JSON object in the format: ")
         ++ tline (lit "{" ++ quoted "businessIdea" ++ lit ": " ++ quoted "Your idea here"
                     ++ lit ", " ++ quoted "painPoint" ++ lit ": score, "
                     ++ quoted "audienceScale" ++ lit ": score, "
                     ++ quoted "monetizationPotential" ++ lit ": score, "
                     ++ quoted "feasibility" ++ lit ": score}.")
         ++ tline (lit "Do not include any other text or formatting.")
     | _ =>
         tline (lit "Act as a Venture Capitalist identifying market gaps. ")
         ++ tline (lit "Based on the problems, frustrations, and unmet needs discussed, provide:")
         ++ tline (lit "1. A single, concrete business idea that could solve a key problem.")
         ++ tline (lit "2. A " ++ quoted "Gap Probability"
                     ++ lit " score from 0 to 100, representing your confidence that there is a significant, underserved need for this business idea.")
         ++ tline []
         ++ tline (lit "Return ONLY a single, raw JSON object in the format: {"
                     ++ quoted "businessIdea" ++ lit ": " ++ quoted "Your idea here"
                     ++ lit ", " ++ quoted "gapProbability" ++ lit ": percentage}.")
         ++ tline (lit "Do not include any other text, formatting, or explanations.")
     end
  ++ tline []
  ++ tline (lit "Content:")
  ++ tline threadContent
  ++ LF :: indent 10.

(** [redditTopics.split('\n').filter(topic => topic.trim() !== '')] *)
Definition topics_of (redditTopics : jsstring) : list jsstring :=
  filter (fun topic => negb (str_eqb (trim topic) []))
         (split LF redditTopics).

(** [topic.trim().replace(/^r\//i, '')] *)
Definition sanitizedTopic (topic : jsstring) : jsstring :=
  strip_r_slash (trim topic).

Definition redditUrl (topic : jsstring) : jsstring :=
  lit "https://www.reddit.com/r/" ++ sanitizedTopic topic.

(** [text.replace(/```json/g, '').replace(/```/g, '').trim()] *)
Definition cleanedJsonText (analysisResultText : jsstring) : jsstring :=
  trim (replaceAll (lit "```") []
          (replaceAll (lit "```json") [] analysisResultText)).

(** the score key of a placeholder: [probability: 0], or [overall: 0] in
    the extended revision *)
Definition placeholder (v : Variant) (url idea_text : jsstring) : Entry :=
  [ ("link", JStr url); ("idea", JStr idea_text);
    (match v with Extended => "overall" | _ => "probability" end, JNum 0) ]%string.

Definition overallScore (env : Env) (painPoint audienceScale
  monetizationPotential feasibility : JsValue) : Outcome jsstring :=
  match painPoint, audienceScale, monetizationPotential, feasibility with
  | JNum p, JNum a, JNum m, JNum f => Ok (toFixed1_of_quarters (p + a + m + f))
  | _, _, _, _ =>
      coerced_overall env painPoint audienceScale monetizationPotential feasibility
  end.

(** What follows [JSON.parse] inside the analysis [try]: the persistence
    guard, the INSERT, and the push of the entry. *)
Definition use_analysis (v : Variant) (env : Env) (i : nat) (url : jsstring)
  (analysisResultJson : JsValue) : M unit :=
  match v with
  | NoStore =>
      businessIdea <- await (get_prop analysisResultJson (lit "businessIdea")) ;;
      gapProbability <- await (get_prop analysisResultJson (lit "gapProbability")) ;;
      push [ ("link", JStr url); ("idea", businessIdea);
             ("probability", gapProbability) ]%string
  | Simple =>
      businessIdea <- await (get_prop analysisResultJson (lit "businessIdea")) ;;
      gapProbability <- await (get_prop analysisResultJson (lit "gapProbability")) ;;
      (if truthy businessIdea && truthy gapProbability
       then db_run env i [JStr url; businessIdea; gapProbability]
       else ret tt) ;;;
      push [ ("link", JStr url); ("idea", businessIdea);
             ("probability", gapProbability) ]%string
  | Extended =>
      businessIdea <- await (get_prop analysisResultJson (lit "businessIdea")) ;;
      painPoint <- await (get_prop analysisResultJson (lit "painPoint")) ;;
      audienceScale <- await (get_prop analysisResultJson (lit "audienceScale")) ;;
      monetizationPotential <-
        await (get_prop analysisResultJson (lit "monetizationPotential")) ;;
      feasibility <- await (get_prop analysisResultJson (lit "feasibility")) ;;
      overall <- await (overallScore env painPoint audienceScale
                          monetizationPotential feasibility) ;;
      (if truthy businessIdea
       then db_run env i [JStr url; businessIdea; painPoint; audienceScale;
                          monetizationPotential; feasibility; JStr overall]
       else ret tt) ;;;
      push [ ("link", JStr url); ("idea", businessIdea); ("pain", painPoint);
             ("audience", audienceScale); ("monetization", monetizationPotential);
             ("feasibility", feasibility); ("overall", JStr overall) ]%string
  end.

(** The body of the loop over the topics: three nested [try] blocks. *)
Definition topic_body (v : Variant) (env : Env) (i : nat) (topic : jsstring)
  : M unit :=
  let url := redditUrl topic in
  try_catch
    (html <- await (axios_get env i url) ;;
     try_catch
       (threadContent <- await (cheerio_body_text env html) ;;
        try_catch
          (analysisResponse <-
             await (generateContent env (TopicCall i)
                      (analysisPrompt v (sanitizedTopic topic) threadContent)) ;;
           analysisResultText <- await (response_text analysisResponse) ;;
           analysisResultJson <-
             await (JSON_parse env (cleanedJsonText analysisResultText)) ;;
           use_analysis v env i url analysisResultJson)
          (fun analysisError =>
             push (placeholder v url (lit "Could not generate or parse analysis."))))
       (fun cheerioError =>
          push (placeholder v url (lit "Error parsing the subreddit page."))))
    (fun error =>
       push (placeholder v url
               (lit "Error fetching the subreddit page: " ++ message error))).

Inductive HttpResponse : Type :=
| Json200 (body : list Entry)
| Json500 (error : jsstring) (details : option jsstring).

(** The handler inside its outer [try]; the inner [catch] around the first
    model call returns the 500 response at once. *)
Definition search_try (v : Variant) (env : Env) : M HttpResponse :=
  match generateContent env SuggestCall prompt with
  | Throw geminiError =>
      ret (Json500 (lit "Gemini API Error") (Some (message geminiError)))
  | Ok geminiResponse =>
      redditTopics <- await (response_text geminiResponse) ;;
      for_of (topic_body v env) 0 (topics_of redditTopics) ;;;
      (fun s => (Ok (Json200 (results s)), s))
  end.

Definition search (v : Variant) (env : Env) (st : Store)
  : HttpResponse * Store :=
  match search_try v env (mkState [] st) with
  | (Ok response, s) => (response, db s)
  | (Throw error, s) =>
      (Json500 (lit "An error occurred during the search.") None, db s)
  end.

(** ** The /history handler

    [db.all('SELECT ... FROM results ORDER BY createdAt DESC')]: the
    statement asks for every row, the later [createdAt] first, and names
    no second key. *)

Definition createdAt_desc (r1 r2 : Row) : Prop := (createdAt r2 <= createdAt r1)%Z.

Definition answers_query (table answer : list Row) : Prop :=
  Permutation table answer /\ StronglySorted createdAt_desc answer.

(** An engine resolves the query to an array of rows or rejects. *)
Definition Engine : Type := list Row -> Outcome (list Row).

Definition engine_sound (db_all : Engine) : Prop :=
  forall table answer, db_all table = Ok answer -> answers_query table answer.

Inductive HistoryResponse : Type :=
| History200 (history : list Row)
| History500 (error : jsstring).

Definition history (db_all : Engine) (st : Store) : HistoryResponse :=
  match db_all (rows st) with
  | Ok rows_found => History200 rows_found
  | Throw err => History500 (lit "Failed to retrieve search history.")
  end.

(** One engine: scan the table in key order and sort stably, so that rows
    of the same second stay in insertion order. *)
Fixpoint place_row (r : Row) (sorted : list Row) : list Row :=
  match sorted with
  | [] => [r]
  | r' :: rest =>
      if (createdAt r' <? createdAt r)%Z then r :: sorted
      else r' :: place_row r rest
  end.

Definition scan_sorted (table : list Row) : list Row :=
  fold_left (fun acc r => place_row r acc) table [].

Definition stable_engine : Engine := fun table => Ok (scan_sorted table).

(** ** Vocabulary for the statements *)

(** A line is blank when every code unit of it is white space. *)
Definition blank (line : jsstring) : bool := forallb is_ws line.

Definition nonblank_lines (raw : jsstring) : list jsstring :=
  filter (fun line => negb (blank line)) (split LF raw).

(** How far the pipeline gets for the topic at position [i]: the stage
    that throws, or the value [JSON.parse] returns. *)
Inductive Stage : Type :=
| FetchError (e : JsError)
| ParseError (e : JsError)
| AnalysisError (e : JsError)
| Parsed (analysisResultJson : JsValue).

Definition stage_of (v : Variant) (env : Env) (i : nat) (topic : jsstring)
  : Stage :=
  match axios_get env i (redditUrl topic) with
  | Throw e => FetchError e
  | Ok html =>
      match cheerio_body_text env html with
      | Throw e => ParseError e
      | Ok threadContent =>
          match generateContent env (TopicCall i)
                  (analysisPrompt v (sanitizedTopic topic) threadContent) with
          | Throw e => AnalysisError e
          | Ok analysisResponse =>
              match response_text analysisResponse with
              | Throw e => AnalysisError e
              | Ok analysisResultText =>
                  match JSON_parse env (cleanedJsonText analysisResultText) with
                  | Throw e => AnalysisError e
                  | Ok json => Parsed json
                  end
              end
          end
      end
  end.

(** The state one iteration of the loop leaves when it starts from an
    empty [results] array. *)
Definition alone (v : Variant) (env : Env) (i : nat) (topic : jsstring)
  (st : Store) : HState :=
  snd (topic_body v env i topic (mkState [] st)).

(** The entries the topics from position [i] on contribute, and the store
    they leave. *)
Fixpoint entries_from (v : Variant) (env : Env) (i : nat)
  (topics : list jsstring) : list Entry :=
  match topics with
  | [] => []
  | topic :: rest =>
      results (alone v env i topic empty_store) ++ entries_from v env (S i) rest
  end.

Fixpoint store_from (v : Variant) (env : Env) (i : nat)
  (topics : list jsstring) (st : Store) : Store :=
  match topics with
  | [] => st
  | topic :: rest => store_from v env (S i) rest (db (alone v env i topic st))
  end.

Fixpoint field (k : string) (entry : Entry) : JsValue :=
  match entry with
  | [] => JUndefined
  | (k', x) :: rest => if String.eqb k k' then x else field k rest
  end.

(** The environment in which the fetch for position [j] fails with [e],
    and every other call is answered as in [env]. *)
Definition with_fetch_failure (j : nat) (e : JsError) (env : Env) : Env :=
  mkEnv (generateContent env)
        (fun i url => if Nat.eqb i j then Throw e else axios_get env i url)
        (cheerio_body_text env) (JSON_parse env) (coerced_overall env)
        (sqlite_insert env).


(** The fence-wrapped form of a model answer. *)
Definition fenced (before body after : jsstring) : jsstring :=
  before ++ lit "```json" ++ body ++ lit "```" ++ after.

(** The tenths a [toFixed(1)] string of a non-negative number denotes. *)
Fixpoint digits_value (acc : Z) (s : jsstring) : option Z :=
  match s with
  | [] => Some acc
  | c :: s' =>
      if ((48 <=? c) && (c <=? 57))%N
      then digits_value (10 * acc + Z.of_N (c - 48)) s'
      else None
  end.

Definition read_tenths (s : jsstring) : option Z :=
  match rev s with
  | d :: dot :: int_rev =>
      if (dot =? 46)%N then
        match int_rev with
        | [] => None
        | _ => digits_value 0 (rev int_rev ++ [d])
        end
      else None
  | _ => None
  end.

(** The normalisation as the specification words it: a leading lower-case
    "r/" is dropped from the trimmed topic, any other topic is kept. *)
Definition strip_marker_as_specified (topic : jsstring) : jsstring :=
  let t := trim topic in
  if startsWith (lit "r/") t then skipn 2 t else t.

(** Rows of one second listed with the later key first. *)
Definition later_first (r1 r2 : Row) : Prop :=
  (createdAt r2 < createdAt r1 \/ (createdAt r2 = createdAt r1 /\ id r2 < id r1))%Z.

(** The entry the topic at position [i] contributes to the response. *)
Definition topic_entry (v : Variant) (env : Env) (i : nat) (topic : jsstring)
  : Entry :=
  hd [] (results (alone v env i topic empty_store)).

(** [entry] is the entry of a real analysis: the properties read from the
    parsed value, under the keys of the revision. *)
Definition real_entry (v : Variant) (env : Env) (url : jsstring)
  (json : JsValue) (entry : Entry) : Prop :=
  match v with
  | Extended =>
      exists businessIdea p a m f overall,
        get_prop json (lit "businessIdea") = Ok businessIdea
        /\ get_prop json (lit "painPoint") = Ok p
        /\ get_prop json (lit "audienceScale") = Ok a
        /\ get_prop json (lit "monetizationPotential") = Ok m
        /\ get_prop json (lit "feasibility") = Ok f
        /\ overallScore env p a m f = Ok overall
        /\ entry = [ ("link", JStr url); ("idea", businessIdea); ("pain", p);
                     ("audience", a); ("monetization", m); ("feasibility", f);
                     ("overall", JStr overall) ]%string
  | _ =>
      exists businessIdea gapProbability,
        get_prop json (lit "businessIdea") = Ok businessIdea
        /\ get_prop json (lit "gapProbability") = Ok gapProbability
        /\ entry = [ ("link", JStr url); ("idea", businessIdea);
                     ("probability", gapProbability) ]%string
  end.

(** The three placeholders. *)
Definition fetch_failed (v : Variant) (topic : jsstring) (e : JsError) : Entry :=
  placeholder v (redditUrl topic)
    (lit "Error fetching the subreddit page: " ++ message e).

Definition extraction_failed (v : Variant) (topic : jsstring) : Entry :=
  placeholder v (redditUrl topic) (lit "Error parsing the subreddit page.").

Definition analysis_failed (v : Variant) (topic : jsstring) : Entry :=
  placeholder v (redditUrl topic) (lit "Could not generate or parse analysis.").

(** [subseq l1 l2]: [l1] is [l2] with some elements left out, order kept. *)
Inductive subseq {A : Type} : list A -> list A -> Prop :=
| subseq_nil : subseq [] []
| subseq_skip x l1 l2 : subseq l1 l2 -> subseq l1 (x :: l2)
| subseq_take x l1 l2 : subseq l1 l2 -> subseq (x :: l1) (x :: l2).

Definition no_backtick (s : jsstring) : bool :=
  forallb (fun c => negb (c =? BACKTICK)%N) s.

(** no run of three backticks anywhere in [s] *)
Fixpoint no_fence (s : jsstring) : bool :=
  match s with
  | [] => true
  | _ :: s' => negb (startsWith (lit "```") s) && no_fence s'
  end.

(** [toFixed1_of_quarters S] reads back as the tenth nearest to [S / 4],
    the upper one when two are equally near. *)
Definition rounds_to_tenth (S : Z) : bool :=
  match read_tenths (toFixed1_of_quarters S) with
  | Some n => ((10 * S - 2 <? 4 * n) && (4 * n <=? 10 * S + 2)
               && (n =? tenths_of_quarters S))%Z
  | None => false
  end.

(** A sub-score as the prompt asks for it. *)
Definition valid_score (x : Z) : Prop := (0 <= x <= 100)%Z.

Definition SLASH : N := 47%N.

(** Two rows inserted within the same second. *)
Definition tie_store : Store :=
  insert_row [JStr (lit "https://www.reddit.com/r/b"); JStr (lit "second"); JNum 60]
    1700000000
    (insert_row [JStr (lit "https://www.reddit.com/r/a"); JStr (lit "first"); JNum 70]
       1700000000 empty_store).

(** The entries pushed after a successful analysis. *)
Definition simple_entry (url : jsstring) (businessIdea gapProbability : JsValue)
  : Entry :=
  [ ("link", JStr url); ("idea", businessIdea);
    ("probability", gapProbability) ]%string.

Definition extended_entry (url : jsstring) (businessIdea p a m f : JsValue)
  (overall : jsstring) : Entry :=
  [ ("link", JStr url); ("idea", businessIdea); ("pain", p); ("audience", a);
    ("monetization", m); ("feasibility", f); ("overall", JStr overall) ]%string.



(** ** A scripted environment, for the examples *)

Definition SIMPLE_JSON : jsstring :=
  lit "{" ++ quoted "businessIdea" ++ lit ":" ++ quoted "Budget coach"
    ++ lit "," ++ quoted "gapProbability" ++ lit ":72}".

Definition simple_json : JsValue :=
  JObj [ (lit "businessIdea", JStr (lit "Budget coach"));
         (lit "gapProbability", JNum 72) ].

Definition EXTENDED_JSON : jsstring :=
  lit "{" ++ quoted "businessIdea" ++ lit ":" ++ quoted "Budget coach"
    ++ lit "," ++ quoted "painPoint" ++ lit ":80,"
    ++ quoted "audienceScale" ++ lit ":60,"
    ++ quoted "monetizationPotential" ++ lit ":40,"
    ++ quoted "feasibility" ++ lit ":90}".

Definition extended_json : JsValue :=
  JObj [ (lit "businessIdea", JStr (lit "Budget coach"));
         (lit "painPoint", JNum 80); (lit "audienceScale", JNum 60);
         (lit "monetizationPotential", JNum 40); (lit "feasibility", JNum 90) ].

(** A parser that knows four texts and rejects every other. *)
Definition toy_parse (s : jsstring) : Outcome JsValue :=
  if str_eqb s SIMPLE_JSON then Ok simple_json
  else if str_eqb s EXTENDED_JSON then Ok extended_json
  else if str_eqb s (lit "{}") then Ok (JObj [])
  else if str_eqb s (lit "null") then Ok JNull
  else Throw (mkError (lit "Unexpected token in JSON")).

Definition scripted (suggestion : Outcome GenerateContentResult)
  (answers : nat -> jsstring) : Env :=
  mkEnv
    (fun call _ =>
       match call with
       | SuggestCall => suggestion
       | TopicCall i => Ok (mkGen (Ok (answers i)))
       end)
    (fun _ _ => Ok (JStr (lit "<body>I wish budgeting were easier</body>")))
    (fun html =>
       match html with
       | JStr s => Ok s
       | _ => Throw (mkError (lit "not markup"))
       end)
    toy_parse
    (fun _ _ _ _ => Ok (lit "NaN"))
    (fun i _ => Ok (1700000000 + Z.of_nat i)%Z).

(** three topics, over four lines of which one is blank *)
Definition three_lines : jsstring :=
  lit "personalfinance" ++ [LF] ++ lit "r/Entrepreneur" ++ [LF] ++ lit "  "
    ++ [LF] ++ lit " R/smallbusiness ".

Definition suggested (raw : jsstring) : GenerateContentResult := mkGen (Ok raw).

Definition demo_env : Env :=
  scripted (Ok (suggested three_lines)) (fun _ => SIMPLE_JSON).

Definition demo_env_extended : Env :=
  scripted (Ok (suggested three_lines)) (fun _ => EXTENDED_JSON).

(** the second answer is fenced, the third is an empty object *)
Definition mixed_env : Env :=
  scripted (Ok (suggested three_lines))
    (fun i => match i with
              | 0 => lit "not json at all"
              | 1 => fenced [LF] ([LF] ++ SIMPLE_JSON ++ [LF]) [LF]
              | _ => lit "{}"
              end).

Definition disk_full : JsError := mkError (lit "SQLITE_FULL: database or disk is full").
Definition timed_out : JsError := mkError (lit "timeout of 0ms exceeded").
Definition blocked : JsError := mkError (lit "Text not available. Response was blocked").

Definition body_of (response : HttpResponse) : list Entry :=
  match response with
  | Json200 body => body
  | Json500 _ _ => []
  end.


(** the suggestion call resolves, but its response has no text *)
Definition unreadable_env : Env :=
  scripted (Ok (mkGen (Throw blocked))) (fun _ => SIMPLE_JSON).

(** the suggestion call rejects *)
Definition model_down_env : Env :=
  scripted (Throw (mkError (lit "fetch failed"))) (fun _ => SIMPLE_JSON).

(** ** Vocabulary for the further properties *)

(** [pieces.join(sep)] for a one-code-unit separator *)
Fixpoint join (sep : N) (pieces : list jsstring) : jsstring :=
  match pieces with
  | [] => []
  | [piece] => piece
  | piece :: rest => piece ++ sep :: join sep rest
  end.

(** the last code unit of [s] is white space *)
Definition ends_ws (s : jsstring) : bool :=
  match rev s with
  | [] => false
  | c :: _ => is_ws c
  end.

(** the first code unit of [s] is white space *)
Definition starts_ws (s : jsstring) : bool :=
  match s with
  | [] => false
  | c :: _ => is_ws c
  end.

(** [s.replace(/```/g, '')] *)
Definition unfenced (s : jsstring) : jsstring := replaceAll (lit "```") [] s.

(** the keys [k] new rows get after [last] *)
Fixpoint ids_from (last : Z) (k : nat) : list Z :=
  match k with
  | O => []
  | S k' => (last + 1)%Z :: ids_from (last + 1) k'
  end.

(** keys grow along the table and none is beyond the sequence counter *)
Definition well_formed (st : Store) : Prop :=
  (0 <= last_id st)%Z
  /\ StronglySorted (fun r1 r2 => (id r1 < id r2)%Z) (rows st)
  /\ Forall (fun r => (0 < id r <= last_id st)%Z) (rows st).

(** the INSERT of [r] was bound to what [entry] shows, the same link, idea
    and scores, and these passed the guard of the revision *)
Definition row_matches_entry (v : Variant) (r : Row) (entry : Entry) : Prop :=
  match v with
  | NoStore => False
  | Simple =>
      exists url businessIdea gapProbability,
        cols r = [JStr url; businessIdea; gapProbability]
        /\ entry = simple_entry url businessIdea gapProbability
        /\ truthy businessIdea = true /\ truthy gapProbability = true
  | Extended =>
      exists url businessIdea p a m f overall,
        cols r = [JStr url; businessIdea; p; a; m; f; JStr overall]
        /\ entry = extended_entry url businessIdea p a m f overall
        /\ truthy businessIdea = true
  end.

(** a parsed value that is no object and can still be read *)
Definition plain_value (json : JsValue) : bool :=
  match json with
  | JBool _ | JNum _ | JStr _ | JArr _ => true
  | _ => false
  end.

(** the smallest and the largest of four sub-scores *)
Definition min4 (p a m f : Z) : Z := Z.min (Z.min p a) (Z.min m f).
Definition max4 (p a m f : Z) : Z := Z.max (Z.max p a) (Z.max m f).

(** the property names of an entry, in order *)
Definition keys (entry : Entry) : list string := List.map fst entry.

(** every INSERT is rejected *)
Definition rejects_all (env : Env) : Prop :=
  forall i params, exists e, sqlite_insert env i params = Throw e.

(** the entry shows no analysis that passed the guard of the revision *)
Definition nothing_storable (v : Variant) (entry : Entry) : Prop :=
  (exists url msg, entry = placeholder v url msg)
  \/ truthy (field "idea" entry) = false
  \/ (v = Simple /\ truthy (field "probability" entry) = false).

(** *** Startup *)

(** what the initialisation block writes to the console *)
Inductive LogLine : Type :=
| ConsoleLog (text : jsstring)
| ConsoleError (text : jsstring) (err : JsError).

(** The initialisation block: [db] is assigned as soon as [open] resolves,
    then the table is created if it is absent; whatever is thrown is logged
    and swallowed.  The result is whether [db] is defined, and the console. *)
Definition startup (open_db exec_create : Outcome unit) : bool * list LogLine :=
  match open_db with
  | Throw err => (false, [ConsoleError (lit "Error connecting to database:") err])
  | Ok _ =>
      match exec_create with
      | Ok _ => (true, [ConsoleLog (lit "Database connected and table created.")])
      | Throw err => (true, [ConsoleError (lit "Error connecting to database:") err])
      end
  end.

(** calling a method of [db] while it is [undefined] *)
Definition no_db (method : string) : JsError :=
  mkError (lit "Cannot read properties of undefined (reading '"
             ++ lit method ++ lit "')").

(** [db.run] and [db.all] as the handlers reach them after [startup] *)
Definition env_after (db_defined : bool) (env : Env) : Env :=
  mkEnv (generateContent env) (axios_get env) (cheerio_body_text env)
        (JSON_parse env) (coerced_overall env)
        (if db_defined then sqlite_insert env
         else fun _ _ => Throw (no_db "run")).

Definition engine_after (db_defined : bool) (db_all : Engine) : Engine :=
  if db_defined then db_all else fun _ => Throw (no_db "all").

(** the suggestion is two lines of white space *)
Definition blank_env : Env :=
  scripted (Ok (suggested (lit "  " ++ [LF] ++ lit " "))) (fun _ => SIMPLE_JSON).

(** every answer is the JSON text null *)
Definition null_env : Env :=
  scripted (Ok (suggested three_lines)) (fun _ => lit "null").

(** ** Vocabulary for the store's answers and for what is sent *)



(** the value is [undefined] *)
Definition is_undefined (x : JsValue) : bool :=
  match x with
  | JUndefined => true
  | _ => false
  end.



(** [db.all('SELECT ... FROM results ORDER BY createdAt DESC')] as SQLite
    runs it: the table is scanned in key order and sorted on [createdAt],
    the later first, by a sorter that keeps rows of equal [createdAt] in
    scan order; or the promise rejects with [failure]. *)
Definition sqlite_all (failure : option JsError) : Engine :=
  fun table =>
    match failure with
    | Some err => Throw err
    | None => Ok (scan_sorted table)
    end.

(** [r1] is listed before [r2]: it is later, or of the same second and
    inserted earlier *)
Definition listed_before (r1 r2 : Row) : Prop :=
  (createdAt r2 < createdAt r1
   \/ (createdAt r2 = createdAt r1 /\ id r1 < id r2))%Z.

(** keys grow along the table, as AUTOINCREMENT assigns them *)
Definition keys_increase (table : list Row) : Prop :=
  StronglySorted (fun r1 r2 => (id r1 < id r2)%Z) table.

(** three rows, the last two of the same second *)
Definition three_times_store : Store :=
  insert_row [JStr (lit "https://www.reddit.com/r/c"); JStr (lit "third"); JNum 50]
    1700000060
    (insert_row [JStr (lit "https://www.reddit.com/r/b"); JStr (lit "second"); JNum 60]
       1700000060
       (insert_row [JStr (lit "https://www.reddit.com/r/a"); JStr (lit "first"); JNum 70]
          1700000000 empty_store)).

(** What [res.json] sends of an entry: [JSON.stringify] leaves out the
    properties whose value is [undefined]. *)
Definition sent (entry : Entry) : Entry :=
  filter (fun kv => negb (is_undefined (snd kv))) entry.

(** The object with the properties [fields] has the value [x] under [k]:
    the property is there with that value, or it is absent and [x] is
    [undefined]. *)
Definition has_property (fields : list (jsstring * JsValue)) (k : jsstring)
  (x : JsValue) : Prop :=
  In (k, x) fields \/ (x = JUndefined /\ ~ In k (List.map fst fields)).

(** answers whose fields are there and falsy *)
Definition EMPTY_IDEA_JSON : jsstring :=
  lit "{" ++ quoted "businessIdea" ++ lit ":" ++ [DQ; DQ]
    ++ lit "," ++ quoted "gapProbability" ++ lit ":0}".

Definition ZERO_PROBABILITY_JSON : jsstring :=
  lit "{" ++ quoted "businessIdea" ++ lit ":" ++ quoted "Budget coach"
    ++ lit "," ++ quoted "gapProbability" ++ lit ":0}".

Definition falsy_parse (s : jsstring) : Outcome JsValue :=
  if str_eqb s EMPTY_IDEA_JSON
  then Ok (JObj [ (lit "businessIdea", JStr []); (lit "gapProbability", JNum 0) ])
  else if str_eqb s ZERO_PROBABILITY_JSON
  then Ok (JObj [ (lit "businessIdea", JStr (lit "Budget coach"));
                  (lit "gapProbability", JNum 0) ])
  else toy_parse s.

(** the three answers: an empty idea with probability 0, an idea with
    probability 0, and an empty object *)
Definition falsy_env : Env :=
  mkEnv (generateContent
           (scripted (Ok (suggested three_lines))
              (fun i => match i with
                        | 0 => EMPTY_IDEA_JSON
                        | 1 => ZERO_PROBABILITY_JSON
                        | _ => lit "{}"
                        end)))
        (axios_get demo_env) (cheerio_body_text demo_env)
        falsy_parse (coerced_overall demo_env) (sqlite_insert demo_env).

(** * Properties *)

(** ** Strings: trimming *)

Lemma trimStart_nil (s : jsstring) : trimStart s = [] <-> blank s = true.
Proof.
  unfold blank. induction s as [|c s IH]; simpl.
  - tauto.
  - destruct (is_ws c); simpl; [exact IH|]. split; discriminate.
Qed.

Lemma trimStart_head (s : jsstring) :
  match trimStart s with [] => True | c :: _ => is_ws c = false end.
Proof.
  induction s as [|c s IH]; simpl; [exact I|].
  destruct (is_ws c) eqn:E; [exact IH | exact E].
Qed.

Lemma blank_rev (s : jsstring) : blank (rev s) = blank s.
Proof.
  unfold blank. induction s as [|c s IH]; simpl; [reflexivity|].
  rewrite forallb_app, IH. simpl. rewrite andb_true_r. apply andb_comm.
Qed.

Lemma trim_nil (s : jsstring) : trim s = [] <-> blank s = true.
Proof.
  unfold trim, trimEnd. split.
  - intros H. apply (f_equal (@rev N)) in H. rewrite rev_involutive in H.
    simpl in H. apply trimStart_nil in H. rewrite blank_rev in H.
    pose proof (trimStart_head s) as Hh.
    destruct (trimStart s) as [|c t] eqn:E.
    + now apply trimStart_nil.
    + unfold blank in H. simpl in H. rewrite Hh in H. discriminate.
  - intros H. apply trimStart_nil in H. rewrite H. reflexivity.
Qed.

Lemma str_eqb_nil (s : jsstring) : str_eqb s [] = true <-> s = [].
Proof. destruct s; simpl; split; congruence. Qed.

Lemma topics_are_nonblank_lines (raw : jsstring) :
  topics_of raw = nonblank_lines raw.
Proof.
  unfold topics_of, nonblank_lines. apply filter_ext. intros line.
  f_equal.
  destruct (str_eqb (trim line) []) eqn:E, (blank line) eqn:B; try reflexivity.
  - apply str_eqb_nil, trim_nil in E. congruence.
  - apply trim_nil in B. rewrite B in E. discriminate.
Qed.

Lemma trimStart_app (x y : jsstring) :
  trimStart (x ++ y) = if blank x then trimStart y else trimStart x ++ y.
Proof.
  unfold blank. induction x as [|c x IH]; simpl; [reflexivity|].
  destruct (is_ws c); simpl; [exact IH | reflexivity].
Qed.

Lemma trimEnd_app_blank (x after : jsstring) :
  blank after = true -> trimEnd (x ++ after) = trimEnd x.
Proof.
  intros H. unfold trimEnd. rewrite rev_app_distr, trimStart_app, blank_rev, H.
  reflexivity.
Qed.

Lemma trim_padding (before body after : jsstring) :
  blank before = true -> blank after = true ->
  trim (before ++ body ++ after) = trim body.
Proof.
  intros Hb Ha. unfold trim. rewrite trimStart_app, Hb, trimStart_app.
  destruct (blank body) eqn:B.
  - apply trimStart_nil in Ha. rewrite Ha.
    apply trimStart_nil in B. now rewrite B.
  - now apply trimEnd_app_blank.
Qed.

(** ** Strings: removing the fences *)

Lemma startsWith_app (pat rest : jsstring) : startsWith pat (pat ++ rest) = true.
Proof.
  induction pat as [|p pat IH]; simpl; [reflexivity|].
  now rewrite N.eqb_refl, IH.
Qed.

Lemma replace_skip (pat rep l rest : jsstring) :
  replace_from pat rep (List.length l) (l ++ rest) = replace_from pat rep 0 rest.
Proof.
  induction l as [|c l IH]; simpl; [reflexivity | exact IH].
Qed.

Lemma replace_match (p : N) (pat rep rest : jsstring) :
  replace_from (p :: pat) rep 0 ((p :: pat) ++ rest)
  = rep ++ replace_from (p :: pat) rep 0 rest.
Proof.
  change ((p :: pat) ++ rest) with (p :: (pat ++ rest)).
  cbn [replace_from].
  change (p :: pat ++ rest) with ((p :: pat) ++ rest).
  rewrite startsWith_app. simpl Nat.pred. now rewrite replace_skip.
Qed.

Lemma replace_no_backtick (pat rep a rest : jsstring) :
  no_backtick a = true ->
  replace_from (BACKTICK :: pat) rep 0 (a ++ rest)
  = a ++ replace_from (BACKTICK :: pat) rep 0 rest.
Proof.
  intros H. induction a as [|c a IH]; [reflexivity|].
  simpl in H. apply andb_true_iff in H. destruct H as [Hc Ha].
  change ((c :: a) ++ rest) with (c :: (a ++ rest)).
  cbn [replace_from startsWith].
  apply negb_true_iff in Hc. rewrite N.eqb_sym in Hc. rewrite Hc. simpl.
  now rewrite IH.
Qed.

Lemma blank_no_backtick (s : jsstring) : blank s = true -> no_backtick s = true.
Proof.
  unfold blank, no_backtick. induction s as [|c s IH]; simpl; [reflexivity|].
  intros H. apply andb_true_iff in H. destruct H as [Hc Hs].
  rewrite (IH Hs), andb_true_r.
  destruct (N.eqb_spec c BACKTICK) as [->|]; [discriminate Hc | reflexivity].
Qed.

Lemma json_fence_not_at_closing (after : jsstring) :
  blank after = true ->
  replaceAll (lit "```json") [] (lit "```" ++ after) = lit "```" ++ after.
Proof.
  intros H. unfold replaceAll.
  pose proof (replace_no_backtick (List.tl (lit "```json")) [] after []
                (blank_no_backtick after H)) as Hr.
  rewrite !app_nil_r in Hr. change (BACKTICK :: List.tl (lit "```json")) with (lit "```json") in Hr.
  destruct after as [|c after'].
  - reflexivity.
  - unfold blank in H. simpl in H. apply andb_true_iff in H. destruct H as [Hc _].
    change (lit "```" ++ c :: after') with (96 :: 96 :: 96 :: c :: after')%N.
    assert (Hj : (106 =? c)%N = false).
    { destruct (N.eqb_spec 106 c) as [<-|]; [discriminate Hc | reflexivity]. }
    assert (Hb : (96 =? c)%N = false).
    { destruct (N.eqb_spec 96 c) as [<-|]; [discriminate Hc | reflexivity]. }
    change (lit "```json") with (96 :: 96 :: 96 :: 106 :: 115 :: 111 :: [110])%N in *.
    cbn [replace_from startsWith]. rewrite !N.eqb_refl. cbn [andb].
    rewrite Hj, Hb. cbn [andb]. do 3 f_equal.
    cbn [replace_from startsWith] in Hr. rewrite Hb in Hr. cbn [andb] in Hr. exact Hr.
Qed.

Lemma no_backtick_replace (pat rep s : jsstring) :
  no_backtick s = true ->
  replace_from (BACKTICK :: pat) rep 0 s = s.
Proof.
  intros H. pose proof (replace_no_backtick pat rep s [] H) as E.
  now rewrite !app_nil_r in E.
Qed.

Lemma startsWith_prefix (p q s : jsstring) :
  startsWith (p ++ q) s = true -> startsWith p s = true.
Proof.
  revert s. induction p as [|c p IH]; intros s H; [reflexivity|].
  destruct s as [|d s]; simpl in *; [discriminate|].
  apply andb_true_iff in H. destruct H as [-> H]. simpl. now apply IH.
Qed.

Lemma no_fence_replace (suffix rep s : jsstring) :
  no_fence s = true ->
  replace_from (lit "```" ++ suffix) rep 0 s = s.
Proof.
  induction s as [|c s IH]; intros H; [reflexivity|].
  cbn [no_fence] in H. apply andb_true_iff in H. destruct H as [Hc Hs].
  apply negb_true_iff in Hc.
  cbn [replace_from].
  destruct (startsWith (lit "```" ++ suffix) (c :: s)) eqn:E.
  - apply startsWith_prefix in E. congruence.
  - now rewrite IH.
Qed.

Lemma no_fence_tail (c : N) (s : jsstring) :
  no_fence (c :: s) = true -> no_fence s = true.
Proof. cbn [no_fence]. intros H. now apply andb_true_iff in H. Qed.

Lemma head_not_backtick (rest : jsstring) :
  no_backtick rest = true ->
  match rest with [] => True | r :: _ => (96 =? r)%N = false end.
Proof.
  destruct rest as [|r rest]; [trivial|]. unfold no_backtick. cbn [forallb].
  intros H. apply andb_true_iff in H. destruct H as [H _].
  apply negb_true_iff in H. rewrite N.eqb_sym in H. exact H.
Qed.

(** the closing fence is found after an inside without a run of three
    backticks, even when the inside ends in backticks *)
Lemma closing_fence_removed (s rest : jsstring) :
  no_fence s = true -> no_backtick rest = true ->
  replaceAll (lit "```") [] (s ++ lit "```" ++ rest) = s ++ rest.
Proof.
  unfold replaceAll. intros Hs Hrest.
  pose proof (no_backtick_replace (List.tl (lit "```")) [] rest Hrest) as Hr.
  change (BACKTICK :: List.tl (lit "```")) with (lit "```") in Hr.
  pose proof (head_not_backtick rest Hrest) as Hh.
  induction s as [|c s IH].
  - change ([] ++ lit "```" ++ rest) with ((96 :: [96; 96]) ++ rest)%N.
    change (lit "```") with (96 :: [96; 96])%N.
    rewrite replace_match. exact Hr.
  - pose proof (no_fence_tail c s Hs) as Hs'. specialize (IH Hs').
    cbn [no_fence] in Hs. apply andb_true_iff in Hs. destruct Hs as [Hc _].
    apply negb_true_iff in Hc.
    change ((c :: s) ++ lit "```" ++ rest) with (c :: (s ++ lit "```" ++ rest)).
    cbn [replace_from].
    destruct (startsWith (lit "```") (c :: s ++ lit "```" ++ rest)) eqn:E.
    + (* the match starts in the trailing backticks of the inside *)
      change (lit "```") with [96; 96; 96]%N in *.
      destruct s as [|c2 [|c3 s]]; cbn [startsWith app] in E.
      * apply andb_true_iff in E. destruct E as [E _].
        apply N.eqb_eq in E. subst c.
        cbn [app List.length Nat.pred replace_from].
        destruct rest as [|r rest]; [reflexivity|].
        cbn [replace_from startsWith] in Hr |- *. rewrite Hh in *.
        rewrite ?N.eqb_refl in *. cbn [andb] in *. now rewrite Hr.
      * apply andb_true_iff in E. destruct E as [E1 E].
        apply andb_true_iff in E. destruct E as [E2 _].
        apply N.eqb_eq in E1, E2. subst c c2.
        cbn [app List.length Nat.pred replace_from].
        destruct rest as [|r rest]; [reflexivity|].
        cbn [replace_from startsWith] in Hr |- *. rewrite Hh in *.
        rewrite ?N.eqb_refl in *. cbn [andb] in *. now rewrite Hr.
      * cbn [startsWith] in Hc. rewrite andb_true_r in E, Hc. congruence.
    + now rewrite IH.
Qed.

(** the opening marker with its language tag does not occur at or before
    the closing fence *)
Lemma tagged_fence_absent (s rest : jsstring) :
  no_fence s = true -> blank rest = true ->
  replaceAll (lit "```json") [] (s ++ lit "```" ++ rest) = s ++ lit "```" ++ rest.
Proof.
  intros Hs Hrest. induction s as [|c s IH].
  - now apply json_fence_not_at_closing.
  - pose proof (no_fence_tail c s Hs) as Hs'. specialize (IH Hs').
    cbn [no_fence] in Hs. apply andb_true_iff in Hs. destruct Hs as [Hc _].
    apply negb_true_iff in Hc.
    unfold replaceAll in *.
    change ((c :: s) ++ lit "```" ++ rest) with (c :: (s ++ lit "```" ++ rest)).
    cbn [replace_from].
    destruct (startsWith (lit "```json") (c :: s ++ lit "```" ++ rest)) eqn:E.
    + exfalso.
      change (lit "```json") with [96; 96; 96; 106; 115; 111; 110]%N in E.
      change (lit "```") with [96; 96; 96]%N in *.
      destruct s as [|c2 [|c3 s]]; cbn [startsWith app] in E, Hc.
      * repeat (apply andb_true_iff in E; destruct E as [? E]). discriminate.
      * repeat (apply andb_true_iff in E; destruct E as [? E]). discriminate.
      * rewrite andb_true_r in Hc.
        repeat (apply andb_true_iff in E; destruct E as [? E]).
        repeat match goal with H : (_ =? _)%N = true |- _ => rewrite H in Hc end.
        discriminate.
    + now rewrite IH.
Qed.

Lemma fence_steps (before body after : jsstring) :
  blank before = true -> blank after = true -> no_fence body = true ->
  replaceAll (lit "```") [] (replaceAll (lit "```json") [] (fenced before body after))
  = before ++ body ++ after.
Proof.
  intros Hb Ha Hn. unfold fenced.
  assert (E1 : replaceAll (lit "```json") []
                 (before ++ lit "```json" ++ body ++ lit "```" ++ after)
               = before ++ body ++ lit "```" ++ after).
  { unfold replaceAll.
    change (lit "```json") with (BACKTICK :: List.tl (lit "```json")).
    rewrite replace_no_backtick by now apply blank_no_backtick.
    rewrite replace_match. cbn [app].
    change (BACKTICK :: List.tl (lit "```json")) with (lit "```json").
    fold (replaceAll (lit "```json") [] (body ++ lit "```" ++ after)).
    now rewrite tagged_fence_absent. }
  rewrite E1. unfold replaceAll.
  change (lit "```") with (BACKTICK :: List.tl (lit "```")).
  rewrite replace_no_backtick by now apply blank_no_backtick.
  change (BACKTICK :: List.tl (lit "```")) with (lit "```").
  fold (replaceAll (lit "```") [] (body ++ lit "```" ++ after)).
  rewrite closing_fence_removed; [reflexivity | assumption |].
  now apply blank_no_backtick.
Qed.

Lemma cleaned_fenced (before body after : jsstring) :
  blank before = true -> blank after = true -> no_fence body = true ->
  cleanedJsonText (fenced before body after) = trim body
  /\ cleanedJsonText body = trim body.
Proof.
  intros Hb Ha Hn. unfold cleanedJsonText. split.
  - rewrite fence_steps by assumption. now apply trim_padding.
  - unfold replaceAll.
    pose proof (no_fence_replace (lit "json") [] body Hn) as H1.
    pose proof (no_fence_replace [] [] body Hn) as H2.
    change (lit "```" ++ lit "json") with (lit "```json") in H1.
    rewrite app_nil_r in H2. now rewrite H1, H2.
Qed.

Example backticks_inside_survive :
  cleanedJsonText (fenced [LF] (lit "{`a``}``") [LF]) = lit "{`a``}``".
Proof. reflexivity. Qed.

(** ** Topic normalisation *)

(** C7, counterexample.  "R/Startups" has no lower-case "r/" marker, yet it
    is not used verbatim: the upper-case marker is stripped. *)
Lemma uppercase_marker_is_stripped :
  sanitizedTopic (lit "R/Startups") = lit "Startups"
  /\ strip_marker_as_specified (lit "R/Startups") = lit "R/Startups"
  /\ sanitizedTopic (lit "R/Startups") <> strip_marker_as_specified (lit "R/Startups")
  /\ redditUrl (lit "R/Startups")
     <> lit "https://www.reddit.com" ++ lit "/r/" ++ lit "R/Startups".
Proof.
  repeat split; try reflexivity; vm_compute; discriminate.
Qed.

(** C7, as the code has it.  The trimmed topic loses one leading "r/" or
    "R/" and nothing more; a trimmed topic that starts with neither is kept
    as trimmed.  The URL is the base, "/r/" and the normalised topic, and
    it is the URL the fetch is issued to. *)
Theorem topic_marker_stripped_once_either_case (topic : jsstring) :
  (forall c rest,
      trim topic = c :: SLASH :: rest -> c = 114%N \/ c = 82%N ->
      sanitizedTopic topic = rest)
  /\ ((forall rest, trim topic <> 114%N :: SLASH :: rest) ->
      (forall rest, trim topic <> 82%N :: SLASH :: rest) ->
      sanitizedTopic topic = trim topic)
  /\ redditUrl topic
     = lit "https://www.reddit.com" ++ lit "/r/" ++ sanitizedTopic topic
  /\ (forall v env i e,
        axios_get env i (lit "https://www.reddit.com" ++ lit "/r/"
                           ++ sanitizedTopic topic) = Throw e ->
        stage_of v env i topic = FetchError e).
Proof.
  unfold sanitizedTopic. repeat split.
  - intros c rest E [-> | ->]; rewrite E; reflexivity.
  - intros Hl Hu. unfold strip_r_slash.
    destruct (trim topic) as [|c1 [|c2 rest]]; try reflexivity.
    destruct (N.eqb_spec c2 47) as [->|]; [|now rewrite andb_false_r].
    destruct (N.eqb_spec c1 114) as [->|]; [now destruct (Hl rest)|].
    destruct (N.eqb_spec c1 82) as [->|]; [now destruct (Hu rest)|].
    reflexivity.
  - intros v env i e H. unfold stage_of.
    change (redditUrl topic) with
      (lit "https://www.reddit.com" ++ lit "/r/" ++ sanitizedTopic topic).
    unfold sanitizedTopic. now rewrite H.
Qed.

Lemma topic_marker_stripped_once_either_case_witness :
  sanitizedTopic (lit " R/smallbusiness ") = lit "smallbusiness"
  /\ sanitizedTopic (lit "r/r/nested") = lit "r/nested".
Proof.
  split.
  - apply (proj1 (topic_marker_stripped_once_either_case (lit " R/smallbusiness "))
             82%N (lit "smallbusiness") eq_refl (or_intror eq_refl)).
  - apply (proj1 (topic_marker_stripped_once_either_case (lit "r/r/nested"))
             114%N (lit "r/nested") eq_refl (or_introl eq_refl)).
Defined.

(** ** The overall score *)

Lemma rounds_to_tenth_upto_400 :
  forallb rounds_to_tenth (List.map Z.of_nat (seq 0 401)) = true.
Proof. vm_compute. reflexivity. Qed.

Lemma rounds_to_tenth_valid (S : Z) :
  (0 <= S <= 400)%Z -> rounds_to_tenth S = true.
Proof.
  intros H. pose proof rounds_to_tenth_upto_400 as Hall.
  rewrite forallb_forall in Hall. apply Hall.
  apply in_map_iff. exists (Z.to_nat S). split; [lia|].
  apply in_seq. lia.
Qed.

(** C6.  For four sub-scores between 0 and 100 the overall score is the
    [toFixed(1)] string of their sum over four: it reads back as [n] tenths
    with [n / 10] nearest to the mean (within a twentieth, the upper tenth
    when two are equally near); for (80, 60, 40, 90) it is "67.5". *)
Theorem overallScore_is_mean_to_one_decimal (env : Env) (p a m f : Z) :
  valid_score p -> valid_score a -> valid_score m -> valid_score f ->
  exists n,
    overallScore env (JNum p) (JNum a) (JNum m) (JNum f)
    = Ok (toFixed1_of_quarters (p + a + m + f))
    /\ read_tenths (toFixed1_of_quarters (p + a + m + f)) = Some n
    /\ (10 * (p + a + m + f) - 2 < 4 * n <= 10 * (p + a + m + f) + 2)%Z
    /\ overallScore env (JNum 80) (JNum 60) (JNum 40) (JNum 90) = Ok (lit "67.5").
Proof.
  unfold valid_score. intros Hp Ha Hm Hf.
  assert (HS : (0 <= p + a + m + f <= 400)%Z) by lia.
  pose proof (rounds_to_tenth_valid _ HS) as H. unfold rounds_to_tenth in H.
  destruct (read_tenths (toFixed1_of_quarters (p + a + m + f))) as [n|];
    [|discriminate].
  exists n. split; [reflexivity|]. split; [reflexivity|].
  apply andb_true_iff in H. destruct H as [H _].
  apply andb_true_iff in H. destruct H as [H1 H2].
  split; [lia | reflexivity].
Qed.

Lemma overallScore_is_mean_to_one_decimal_witness :
  overallScore demo_env_extended (JNum 80) (JNum 60) (JNum 40) (JNum 90)
  = Ok (lit "67.5")
  /\ read_tenths (lit "67.5") = Some 675%Z.
Proof.
  assert (V80 : valid_score 80) by (unfold valid_score; lia).
  assert (V60 : valid_score 60) by (unfold valid_score; lia).
  assert (V40 : valid_score 40) by (unfold valid_score; lia).
  assert (V90 : valid_score 90) by (unfold valid_score; lia).
  destruct (overallScore_is_mean_to_one_decimal demo_env_extended 80 60 40 90
              V80 V60 V40 V90)
    as (n & Ho & Hr & _ & _).
  split; [exact Ho | reflexivity].
Defined.

(** ** The store and /history *)


Lemma place_row_perm (r : Row) (sorted : list Row) :
  Permutation (r :: sorted) (place_row r sorted).
Proof.
  induction sorted as [|r' rest IH]; simpl; [reflexivity|].
  destruct (createdAt r' <? createdAt r)%Z; [reflexivity|].
  rewrite perm_swap. now constructor.
Qed.

Lemma place_row_sorted (r : Row) (sorted : list Row) :
  StronglySorted createdAt_desc sorted ->
  StronglySorted createdAt_desc (place_row r sorted).
Proof.
  induction sorted as [|r' rest IH]; intros H; simpl.
  - repeat constructor.
  - inversion H as [|? ? Hrest Hall]; subst.
    destruct (Z.ltb_spec (createdAt r') (createdAt r)) as [Hlt | Hge].
    + constructor; [exact H|]. constructor; [unfold createdAt_desc; lia|].
      eapply Forall_impl; [|exact Hall]. unfold createdAt_desc. intros; lia.
    + constructor; [now apply IH|].
      eapply Permutation_Forall; [apply place_row_perm|].
      constructor; [unfold createdAt_desc; lia | exact Hall].
Qed.

Lemma scan_sorted_answers (table : list Row) : answers_query table (scan_sorted table).
Proof.
  unfold answers_query, scan_sorted.
  assert (G : forall acc,
             StronglySorted createdAt_desc acc ->
             Permutation (acc ++ table)
               (fold_left (fun acc r => place_row r acc) table acc)
             /\ StronglySorted createdAt_desc
                  (fold_left (fun acc r => place_row r acc) table acc)).
  { induction table as [|r table IH]; intros acc Hacc; simpl.
    - rewrite app_nil_r. split; [reflexivity | exact Hacc].
    - destruct (IH (place_row r acc) (place_row_sorted r acc Hacc)) as [P S].
      split; [|exact S]. rewrite <- P.
      rewrite <- Permutation_middle.
      apply (Permutation_app_tail table (place_row_perm r acc)). }
  apply (G []). constructor.
Qed.

Lemma stable_engine_sound : engine_sound stable_engine.
Proof.
  intros table answer H. injection H as <-. apply scan_sorted_answers.
Qed.

Lemma place_row_listed (r : Row) (sorted : list Row) :
  StronglySorted listed_before sorted ->
  Forall (fun x => (id x < id r)%Z) sorted ->
  StronglySorted listed_before (place_row r sorted).
Proof.
  induction sorted as [|r' rest IH]; intros Hs Hid; simpl.
  - repeat constructor.
  - inversion Hs as [|? ? Hrest Hall]; subst.
    inversion Hid as [|? ? Hr' Hidrest]; subst.
    destruct (Z.ltb_spec (createdAt r') (createdAt r)) as [Hlt | Hge].
    + constructor; [exact Hs|]. constructor; [left; exact Hlt|].
      eapply Forall_impl; [|exact Hall]. unfold listed_before.
      intros x [Hx | [Hx _]]; left; lia.
    + constructor; [now apply IH|].
      eapply Permutation_Forall; [apply place_row_perm|].
      constructor; [|exact Hall].
      unfold listed_before. lia.
Qed.

Lemma scan_sorted_listed (table : list Row) :
  keys_increase table -> StronglySorted listed_before (scan_sorted table).
Proof.
  unfold scan_sorted, keys_increase.
  assert (G : forall acc,
             StronglySorted listed_before acc ->
             Forall (fun x => Forall (fun r => (id x < id r)%Z) table) acc ->
             StronglySorted (fun r1 r2 => (id r1 < id r2)%Z) table ->
             StronglySorted listed_before
               (fold_left (fun acc r => place_row r acc) table acc)).
  { induction table as [|r table IH]; intros acc Hacc Hids Hk; simpl; [exact Hacc|].
    inversion Hk as [|? ? Hk' Hr]; subst.
    apply IH; [| |exact Hk'].
    - apply place_row_listed; [exact Hacc|].
      eapply Forall_impl; [|exact Hids]. intros x Hx. now inversion Hx.
    - eapply Permutation_Forall; [apply place_row_perm|].
      constructor; [exact Hr|].
      eapply Forall_impl; [|exact Hids]. intros x Hx. now inversion Hx. }
  intros Hk. apply (G []); [constructor | constructor | exact Hk].
Qed.

Lemma three_times_keys : keys_increase (rows three_times_store).
Proof.
  unfold keys_increase. simpl.
  repeat constructor; simpl; lia.
Qed.

(** C5, as the code has it.  /history answers 200 with all the rows, the
    later [createdAt] first, or 500 when the query is rejected.  The query
    names no second key: rows of the same second are listed in insertion
    order, the earlier key first. *)
Theorem history_lists_later_first_and_ties_in_insertion_order (st : Store) :
  (exists h,
      history (sqlite_all None) st = History200 h
      /\ Permutation (rows st) h
      /\ StronglySorted createdAt_desc h
      /\ (keys_increase (rows st) -> StronglySorted listed_before h))
  /\ (forall err,
        history (sqlite_all (Some err)) st
        = History500 (lit "Failed to retrieve search history.")).
Proof.
  split.
  - exists (scan_sorted (rows st)).
    destruct (scan_sorted_answers (rows st)) as [P S].
    split; [reflexivity|]. split; [exact P|]. split; [exact S|].
    apply scan_sorted_listed.
  - intros err. reflexivity.
Qed.

Lemma history_lists_later_first_and_ties_in_insertion_order_witness :
  history (sqlite_all None) three_times_store
  = History200
      [ mkRow 2 [JStr (lit "https://www.reddit.com/r/b"); JStr (lit "second"); JNum 60]
          1700000060;
        mkRow 3 [JStr (lit "https://www.reddit.com/r/c"); JStr (lit "third"); JNum 50]
          1700000060;
        mkRow 1 [JStr (lit "https://www.reddit.com/r/a"); JStr (lit "first"); JNum 70]
          1700000000 ]
  /\ StronglySorted listed_before (scan_sorted (rows three_times_store)).
Proof.
  destruct (proj1 (history_lists_later_first_and_ties_in_insertion_order
                     three_times_store))
    as (h & Hh & _ & _ & Hties).
  split; [reflexivity|].
  assert (E : h = scan_sorted (rows three_times_store)).
  { unfold history, sqlite_all in Hh. now injection Hh. }
  rewrite <- E. exact (Hties three_times_keys).
Defined.

(** C5, counterexample.  An engine that answers the query and lists two
    rows of the same second in insertion order, the earlier first. *)
Lemma history_tie_lists_earlier_insert_first :
  history stable_engine tie_store
  = History200
      [ mkRow 1 [JStr (lit "https://www.reddit.com/r/a"); JStr (lit "first"); JNum 70]
          1700000000;
        mkRow 2 [JStr (lit "https://www.reddit.com/r/b"); JStr (lit "second"); JNum 60]
          1700000000 ]
  /\ history (sqlite_all None) tie_store = history stable_engine tie_store
  /\ ~ (forall (db_all : Engine) (st : Store) (h : list Row),
          engine_sound db_all ->
          history db_all st = History200 h ->
          StronglySorted later_first h).
Proof.
  split; [reflexivity|]. split; [reflexivity|].
  intros H.
  specialize (H stable_engine tie_store _ stable_engine_sound eq_refl).
  inversion H as [|? ? _ Hall]; subst.
  inversion Hall as [|? ? Hlf _]; subst.
  unfold later_first in Hlf. simpl in Hlf. lia.
Qed.

(** ** One iteration of the loop, and the loop *)

Ltac break_match :=
  match goal with
  | |- context [match ?x with _ => _ end] =>
      lazymatch x with
      | context [match _ with _ => _ end] => fail
      | _ => destruct x eqn:?
      end
  end.

Ltac run_handler :=
  unfold alone, topic_body, use_analysis, try_catch, bind, await, push, db_run, ret;
  simpl.

Ltac run_stage H :=
  unfold stage_of in H; unfold topic_entry; run_handler;
  repeat (break_match; simpl; try discriminate).

Section Loop.

Variables (v : Variant) (env : Env).

Lemma topic_body_frame (i : nat) (topic : jsstring)
  (s : HState) :
  topic_body v env i topic s
  = (Ok tt, mkState (results s ++ results (alone v env i topic (db s)))
                    (db (alone v env i topic (db s)))).
Proof.
  destruct s as [rs st].
  destruct v; run_handler; repeat (break_match; simpl); try reflexivity.
Qed.

Lemma alone_single (i : nat) (topic : jsstring)
  (st : Store) :
  results (alone v env i topic st) = [topic_entry v env i topic].
Proof.
  unfold topic_entry.
  destruct v; run_handler; repeat (break_match; simpl); reflexivity.
Qed.

Lemma topic_entry_link (i : nat) (topic : jsstring) :
  field "link" (topic_entry v env i topic) = JStr (redditUrl topic).
Proof.
  unfold topic_entry.
  destruct v; run_handler; repeat (break_match; simpl); reflexivity.
Qed.

Lemma topic_entry_of_alone i topic st entry st' :
  alone v env i topic st = mkState [entry] st' -> topic_entry v env i topic = entry.
Proof.
  intros H. pose proof (alone_single i topic st) as E.
  rewrite H in E. simpl in E. now injection E.
Qed.

Lemma for_of_topics (topics : list jsstring) :
  forall (i : nat) (s : HState),
    for_of (topic_body v env) i topics s
    = (Ok tt, mkState (results s ++ entries_from v env i topics)
                      (store_from v env i topics (db s))).
Proof.
  induction topics as [|topic rest IH]; intros i s; simpl.
  - unfold ret. rewrite app_nil_r. now destruct s.
  - unfold bind. rewrite topic_body_frame, IH. simpl.
    rewrite !alone_single, <- app_assoc. reflexivity.
Qed.

Lemma entries_from_length (topics : list jsstring) :
  forall i, List.length (entries_from v env i topics) = List.length topics.
Proof.
  induction topics as [|topic rest IH]; intros i; simpl; [reflexivity|].
  rewrite alone_single. simpl. now rewrite IH.
Qed.

Lemma entries_from_nth (topics : list jsstring) :
  forall i k,
    nth_error (entries_from v env i topics) k
    = option_map (topic_entry v env (i + k)) (nth_error topics k).
Proof.
  induction topics as [|topic rest IH]; intros i k; simpl.
  - now destruct k.
  - rewrite alone_single. destruct k as [|k]; simpl.
    + now rewrite Nat.add_0_r.
    + rewrite IH. now rewrite Nat.add_succ_r.
Qed.

Lemma entries_from_links (topics : list jsstring) :
  forall i,
    List.map (field "link") (entries_from v env i topics)
    = List.map (fun topic => JStr (redditUrl topic)) topics.
Proof.
  induction topics as [|topic rest IH]; intros i; simpl; [reflexivity|].
  rewrite alone_single. simpl List.map. now rewrite topic_entry_link, IH.
Qed.

Lemma search_after_suggestion (st : Store)
  (g : GenerateContentResult) (raw : jsstring) :
  generateContent env SuggestCall prompt = Ok g ->
  response_text g = Ok raw ->
  search v env st
  = (Json200 (entries_from v env 0 (topics_of raw)),
     store_from v env 0 (topics_of raw) st).
Proof.
  intros Hg Ht. unfold search, search_try. rewrite Hg.
  unfold bind, await. rewrite Ht, for_of_topics. reflexivity.
Qed.

Lemma fetch_error_entry i topic e :
  stage_of v env i topic = FetchError e ->
  topic_entry v env i topic = fetch_failed v topic e
  /\ forall st, db (alone v env i topic st) = st.
Proof.
  intros H. unfold fetch_failed. split; [|intros st]; revert H; intros H;
  run_stage H; try congruence; reflexivity.
Qed.

Lemma parse_error_entry i topic e :
  stage_of v env i topic = ParseError e ->
  topic_entry v env i topic = extraction_failed v topic
  /\ forall st, db (alone v env i topic st) = st.
Proof.
  intros H. unfold extraction_failed. split; [|intros st]; revert H; intros H;
  run_stage H; try congruence; reflexivity.
Qed.

Lemma analysis_error_entry i topic e :
  stage_of v env i topic = AnalysisError e ->
  topic_entry v env i topic = analysis_failed v topic
  /\ forall st, db (alone v env i topic st) = st.
Proof.
  intros H. unfold analysis_failed. split; [|intros st]; revert H; intros H;
  run_stage H; try congruence; reflexivity.
Qed.

(** After a successful parse the iteration is the analysis [try] block
    run on the parsed value. *)
Lemma parsed_alone i topic json st :
  stage_of v env i topic = Parsed json ->
  alone v env i topic st
  = snd (try_catch (use_analysis v env i (redditUrl topic) json)
           (fun _ => push (analysis_failed v topic)) (mkState [] st)).
Proof.
  intros H. unfold analysis_failed. unfold stage_of in H.
  unfold alone, topic_body, try_catch, bind, await.
  repeat (break_match; simpl; try discriminate); congruence.
Qed.

Lemma placeholder_or_real i topic :
  (exists msg, topic_entry v env i topic = placeholder v (redditUrl topic) msg)
  \/ (exists json, stage_of v env i topic = Parsed json
                   /\ real_entry v env (redditUrl topic) json (topic_entry v env i topic)).
Proof.
  destruct (stage_of v env i topic) as [e|e|e|json] eqn:H.
  - left. eexists. apply (fetch_error_entry _ _ _ H).
  - left. eexists. apply (parse_error_entry _ _ _ H).
  - left. eexists. apply (analysis_error_entry _ _ _ H).
  - unfold topic_entry. rewrite (parsed_alone _ _ _ empty_store H).
    unfold real_entry.
    destruct v; unfold use_analysis, try_catch, bind, await, push, db_run, ret, analysis_failed;
      simpl; repeat (break_match; simpl);
      first [ left; eexists; reflexivity
            | right; eexists; split; [reflexivity|];
              repeat eexists; repeat split; first [eassumption | reflexivity] ].
Qed.

Lemma alone_store i topic st :
  db (alone v env i topic st) = st
  \/ exists params now,
       db (alone v env i topic st) = insert_row params now st
       /\ nth 0 params JUndefined = JStr (redditUrl topic).
Proof.
  destruct v; run_handler; repeat (break_match; simpl);
    first [ left; reflexivity | right; do 2 eexists; split; reflexivity ].
Qed.

Lemma store_from_rows topics :
  forall i st,
  exists added,
    rows (store_from v env i topics st) = rows st ++ added
    /\ subseq (List.map subreddit added)
              (List.map (fun topic => JStr (redditUrl topic)) topics).
Proof.
  induction topics as [|topic rest IH]; intros i st; simpl.
  - exists []. rewrite app_nil_r. split; [reflexivity | constructor].
  - destruct (alone_store i topic st) as [E | (params & now & E & Hp)];
      rewrite E; destruct (IH (S i) (db (alone v env i topic st))) as (added & Hr & Hs);
      rewrite E in Hr.
    + exists added. split; [exact Hr | now constructor].
    + exists (mkRow (last_id st + 1) params now :: added). split.
      * rewrite Hr. unfold insert_row. simpl. now rewrite <- app_assoc.
      * simpl. unfold subreddit at 1. simpl. rewrite Hp. now constructor.
Qed.



End Loop.

(** ** After a successful parse, revision by revision *)

Ltac run_parsed H st :=
  rewrite (parsed_alone _ _ _ _ _ st H);
  unfold use_analysis, try_catch, bind, await, push, db_run, ret; simpl.

Lemma nostore_parsed env i topic json idea prob st :
  stage_of NoStore env i topic = Parsed json ->
  get_prop json (lit "businessIdea") = Ok idea ->
  get_prop json (lit "gapProbability") = Ok prob ->
  alone NoStore env i topic st
  = mkState [simple_entry (redditUrl topic) idea prob] st.
Proof.
  intros H Hi Hp. run_parsed H st.
  simpl in Hi, Hp. rewrite Hi, Hp. reflexivity.
Qed.

Lemma simple_parsed env i topic json idea prob st :
  stage_of Simple env i topic = Parsed json ->
  get_prop json (lit "businessIdea") = Ok idea ->
  get_prop json (lit "gapProbability") = Ok prob ->
  alone Simple env i topic st
  = if truthy idea && truthy prob
    then match sqlite_insert env i [JStr (redditUrl topic); idea; prob] with
         | Ok now =>
             mkState [simple_entry (redditUrl topic) idea prob]
               (insert_row [JStr (redditUrl topic); idea; prob] now st)
         | Throw _ => mkState [analysis_failed Simple topic] st
         end
    else mkState [simple_entry (redditUrl topic) idea prob] st.
Proof.
  intros H Hi Hp. run_parsed H st.
  simpl in Hi, Hp. rewrite Hi, Hp.
  destruct (truthy idea && truthy prob); simpl; [|reflexivity].
  destruct (sqlite_insert env i _); reflexivity.
Qed.



(** ** Runs of the scripted environments *)

Example fetch_failure_among_three :
  fst (search Simple (with_fetch_failure 1 timed_out demo_env) empty_store)
  = Json200
      [ [ ("link", JStr (lit "https://www.reddit.com/r/personalfinance"));
          ("idea", JStr (lit "Budget coach")); ("probability", JNum 72) ];
        [ ("link", JStr (lit "https://www.reddit.com/r/Entrepreneur"));
          ("idea", JStr (lit "Error fetching the subreddit page: timeout of 0ms exceeded"));
          ("probability", JNum 0) ];
        [ ("link", JStr (lit "https://www.reddit.com/r/smallbusiness"));
          ("idea", JStr (lit "Budget coach")); ("probability", JNum 72) ] ]%string.
Proof. reflexivity. Qed.

Example extended_run_scores :
  List.map (field "overall")
    (body_of (fst (search Extended demo_env_extended empty_store)))
  = [JStr (lit "67.5"); JStr (lit "67.5"); JStr (lit "67.5")].
Proof. reflexivity. Qed.

Example falsy_answers_run :
  search Simple falsy_env empty_store
  = (Json200
       [ [ ("link", JStr (lit "https://www.reddit.com/r/personalfinance"));
           ("idea", JStr []); ("probability", JNum 0) ];
         [ ("link", JStr (lit "https://www.reddit.com/r/Entrepreneur"));
           ("idea", JStr (lit "Budget coach")); ("probability", JNum 0) ];
         [ ("link", JStr (lit "https://www.reddit.com/r/smallbusiness"));
           ("idea", JUndefined); ("probability", JUndefined) ] ]%string,
     empty_store).
Proof. reflexivity. Qed.

Example same_second_rows_run :
  history (sqlite_all None) tie_store
  = History200
      [ mkRow 1 [JStr (lit "https://www.reddit.com/r/a"); JStr (lit "first"); JNum 70]
          1700000000;
        mkRow 2 [JStr (lit "https://www.reddit.com/r/b"); JStr (lit "second"); JNum 60]
          1700000000 ].
Proof. reflexivity. Qed.

(** ** The response of /search *)

(** C1.  When the suggestion call and the reading of its text succeed, the
    /search handler answers 200 with exactly one entry per non-blank line
    of the raw suggestion, in the order of the lines: the entry at position
    [k] carries the URL of line [k] and is either a placeholder or the
    entry of a real analysis of that line; the rows added to the store
    follow the same order. *)
Theorem search_one_entry_per_nonblank_line (v : Variant) (env : Env)
  (st : Store) (g : GenerateContentResult) (raw : jsstring) :
  generateContent env SuggestCall prompt = Ok g ->
  response_text g = Ok raw ->
  exists body added,
    fst (search v env st) = Json200 body
    /\ List.length body = List.length (nonblank_lines raw)
    /\ List.map (field "link") body
       = List.map (fun line => JStr (redditUrl line)) (nonblank_lines raw)
    /\ (forall k line,
          nth_error (nonblank_lines raw) k = Some line ->
          nth_error body k = Some (topic_entry v env k line)
          /\ ((exists msg,
                 topic_entry v env k line = placeholder v (redditUrl line) msg)
              \/ (exists json,
                    stage_of v env k line = Parsed json
                    /\ real_entry v env (redditUrl line) json
                         (topic_entry v env k line))))
    /\ rows (snd (search v env st)) = rows st ++ added
    /\ subseq (List.map subreddit added)
              (List.map (fun line => JStr (redditUrl line)) (nonblank_lines raw)).
Proof.
  intros Hg Ht.
  rewrite (search_after_suggestion v env st g raw Hg Ht).
  rewrite topics_are_nonblank_lines.
  destruct (store_from_rows v env (nonblank_lines raw) 0 st) as (added & Hr & Hs).
  exists (entries_from v env 0 (nonblank_lines raw)), added. simpl.
  repeat split.
  - apply entries_from_length.
  - apply entries_from_links.
  - rewrite entries_from_nth, H. reflexivity.
  - apply placeholder_or_real.
  - exact Hr.
  - exact Hs.
Qed.

Lemma search_one_entry_per_nonblank_line_witness :
  exists body,
    fst (search Simple demo_env empty_store) = Json200 body
    /\ List.length body = 3.
Proof.
  destruct (search_one_entry_per_nonblank_line Simple demo_env empty_store
              (suggested three_lines) three_lines eq_refl eq_refl)
    as (body & added & Hb & Hl & _).
  exists body. split; [exact Hb | exact Hl].
Defined.

Lemma fetch_failure_entry_here v env j e topic :
  topic_entry v (with_fetch_failure j e env) j topic = fetch_failed v topic e.
Proof.
  apply (fetch_error_entry v (with_fetch_failure j e env) j topic e).
  unfold stage_of, with_fetch_failure. simpl. now rewrite Nat.eqb_refl.
Qed.

Lemma fetch_failure_entry_elsewhere v env j e i topic :
  i <> j ->
  topic_entry v (with_fetch_failure j e env) i topic = topic_entry v env i topic.
Proof.
  intros Hne. unfold topic_entry, alone, topic_body, with_fetch_failure.
  simpl. apply Nat.eqb_neq in Hne. rewrite Hne. reflexivity.
Qed.

(** C2.  A failure of the fetch, of the extraction or of the analysis of a
    topic does not abort the request: the response is still a 200 with one
    entry per topic, and the failing topic's entry is the placeholder of
    its stage: the topic's link, an error text as the idea (for a fetch,
    the fixed prefix and the error's message) and the number 0 as
    probability, or as overall in the extended revision.  Making the fetch
    of one position [j] fail changes the entry at [j] into the fetch
    placeholder and leaves every other entry as it was. *)
Theorem per_topic_failures_give_placeholders (v : Variant) (env : Env)
  (st : Store) (g : GenerateContentResult) (raw : jsstring) :
  generateContent env SuggestCall prompt = Ok g ->
  response_text g = Ok raw ->
  exists body,
    fst (search v env st) = Json200 body
    /\ List.length body = List.length (topics_of raw)
    /\ (forall i topic,
          nth_error (topics_of raw) i = Some topic ->
          nth_error body i = Some (topic_entry v env i topic)
          /\ (forall e, stage_of v env i topic = FetchError e ->
                     nth_error body i
                     = Some [ ("link", JStr (redditUrl topic));
                              ("idea",
                               JStr (lit "Error fetching the subreddit page: "
                                       ++ message e)%list);
                              (match v with
                               | Extended => "overall"
                               | _ => "probability"
                               end, JNum 0) ]%string)
          /\ (forall e, stage_of v env i topic = ParseError e ->
                        nth_error body i
                        = Some [ ("link", JStr (redditUrl topic));
                                 ("idea", JStr (lit "Error parsing the subreddit page."));
                                 (match v with
                                  | Extended => "overall"
                                  | _ => "probability"
                                  end, JNum 0) ]%string)
          /\ (forall e, stage_of v env i topic = AnalysisError e ->
                        nth_error body i
                        = Some [ ("link", JStr (redditUrl topic));
                                 ("idea", JStr (lit "Could not generate or parse analysis."));
                                 (match v with
                                  | Extended => "overall"
                                  | _ => "probability"
                                  end, JNum 0) ]%string))
    /\ (forall j e,
        exists body',
          fst (search v (with_fetch_failure j e env) st) = Json200 body'
          /\ List.length body' = List.length body
          /\ (forall topic,
                nth_error (topics_of raw) j = Some topic ->
                nth_error body' j
                = Some [ ("link", JStr (redditUrl topic));
                         ("idea",
                          JStr (lit "Error fetching the subreddit page: "
                                  ++ message e)%list);
                         (match v with
                          | Extended => "overall"
                          | _ => "probability"
                          end, JNum 0) ]%string)
          /\ (forall i, i <> j -> nth_error body' i = nth_error body i)).
Proof.
  intros Hg Ht.
  rewrite (search_after_suggestion v env st g raw Hg Ht). simpl.
  exists (entries_from v env 0 (topics_of raw)).
  split; [reflexivity|]. split; [apply entries_from_length|]. split.
  - intros i topic Hi. rewrite entries_from_nth, Hi. simpl.
    split; [reflexivity|]. repeat split; intros e He; f_equal.
    + apply (fetch_error_entry _ _ _ _ _ He).
    + apply (parse_error_entry _ _ _ _ _ He).
    + apply (analysis_error_entry _ _ _ _ _ He).
  - intros j e.
    rewrite (search_after_suggestion v (with_fetch_failure j e env) st g raw Hg Ht).
    simpl. exists (entries_from v (with_fetch_failure j e env) 0 (topics_of raw)).
    split; [reflexivity|]. split; [now rewrite !entries_from_length|]. split.
    + intros topic Hj. rewrite entries_from_nth, Hj. simpl.
      now rewrite fetch_failure_entry_here.
    + intros i Hne. rewrite !entries_from_nth. simpl.
      destruct (nth_error (topics_of raw) i); simpl; [|reflexivity].
      now rewrite fetch_failure_entry_elsewhere.
Qed.

Lemma per_topic_failures_give_placeholders_witness :
  exists body',
    fst (search Simple (with_fetch_failure 1 timed_out demo_env) empty_store)
    = Json200 body'
    /\ List.length body' = 3
    /\ nth_error body' 1
       = Some [ ("link", JStr (lit "https://www.reddit.com/r/Entrepreneur"));
                ("idea", JStr (lit "Error fetching the subreddit page: timeout of 0ms exceeded"));
                ("probability", JNum 0) ]%string
    /\ nth_error body' 0
       = nth_error (body_of (fst (search Simple demo_env empty_store))) 0
    /\ nth_error body' 2
       = nth_error (body_of (fst (search Simple demo_env empty_store))) 2.
Proof.
  destruct (per_topic_failures_give_placeholders Simple demo_env empty_store
              (suggested three_lines) three_lines eq_refl eq_refl)
    as (body & Hb & Hl & _ & Hinject).
  destruct (Hinject 1 timed_out) as (body' & Hb' & Hl' & Hj & Hother).
  exists body'. split; [exact Hb'|]. split; [now rewrite Hl', Hl|].
  split; [apply (Hj (lit "r/Entrepreneur")); reflexivity|].
  rewrite Hb. simpl body_of. split; apply Hother; discriminate.
Defined.

(** C8, as the code has it.  When the suggestion call rejects, the request
    answers 500 "Gemini API Error" with the error's message and writes
    nothing.  The request answers 500 exactly when the suggestion call
    rejects or the text of its response cannot be read; whenever it does,
    the store is untouched.  In the second case the answer is the 500 of
    the outer [catch], "An error occurred during the search.". *)
Theorem only_the_suggestion_step_is_fatal (v : Variant) (env : Env)
  (st : Store) :
  (forall e,
      generateContent env SuggestCall prompt = Throw e ->
      search v env st
      = (Json500 (lit "Gemini API Error") (Some (message e)), st))
  /\ ((exists err details, fst (search v env st) = Json500 err details)
      <-> ((exists e, generateContent env SuggestCall prompt = Throw e)
           \/ (exists g e, generateContent env SuggestCall prompt = Ok g
                           /\ response_text g = Throw e)))
  /\ (forall err details,
        fst (search v env st) = Json500 err details -> snd (search v env st) = st)
  /\ (forall g e,
        generateContent env SuggestCall prompt = Ok g ->
        response_text g = Throw e ->
        search v env st
        = (Json500 (lit "An error occurred during the search.") None, st)).
Proof.
  split; [|split; [|split]].
  - intros e He. unfold search, search_try. now rewrite He.
  - split.
    + intros (err & details & H).
      destruct (generateContent env SuggestCall prompt) as [g|e] eqn:Hg.
      * destruct (response_text g) as [raw|e] eqn:Ht.
        -- rewrite (search_after_suggestion v env st g raw Hg Ht) in H. discriminate.
        -- right. now exists g, e.
      * left. now exists e.
    + intros [(e & He) | (g & e & Hg & Ht)].
      * unfold search, search_try. rewrite He. simpl. now eexists; eexists.
      * unfold search, search_try. rewrite Hg. unfold bind, await. rewrite Ht.
        simpl. now eexists; eexists.
  - intros err details H.
    destruct (generateContent env SuggestCall prompt) as [g|e] eqn:Hg.
    + destruct (response_text g) as [raw|e] eqn:Ht.
      * rewrite (search_after_suggestion v env st g raw Hg Ht) in H. discriminate.
      * unfold search, search_try. rewrite Hg. unfold bind, await. now rewrite Ht.
    + unfold search, search_try. now rewrite Hg.
  - intros g e Hg Ht. unfold search, search_try. rewrite Hg.
    unfold bind, await. now rewrite Ht.
Qed.

Lemma only_the_suggestion_step_is_fatal_witness :
  search Simple model_down_env empty_store
  = (Json500 (lit "Gemini API Error") (Some (lit "fetch failed")), empty_store).
Proof.
  apply (proj1 (only_the_suggestion_step_is_fatal Simple model_down_env empty_store)
           (mkError (lit "fetch failed")) eq_refl).
Defined.

(** C8, counterexample.  The suggestion call resolves, its text cannot be
    read, and the request answers 500 through the outer [catch]. *)
Lemma unreadable_suggestion_is_fatal_too :
  generateContent unreadable_env SuggestCall prompt = Ok (mkGen (Throw blocked))
  /\ search Simple unreadable_env empty_store
     = (Json500 (lit "An error occurred during the search.") None, empty_store)
  /\ ~ (forall (v : Variant) (env : Env) (st : Store) err details,
          fst (search v env st) = Json500 err details ->
          exists e, generateContent env SuggestCall prompt = Throw e).
Proof.
  split; [reflexivity|]. split; [reflexivity|].
  intros H.
  destruct (H Simple unreadable_env empty_store _ _ eq_refl) as (e & He).
  discriminate He.
Qed.

(** ** Persistence *)











Lemma str_eqb_eq (a b : jsstring) : str_eqb a b = true <-> a = b.
Proof.
  revert b. induction a as [|x a IH]; intros [|y b]; simpl; split;
    try discriminate; try reflexivity.
  - intros H. apply andb_true_iff in H. destruct H as [Hx Ha].
    apply N.eqb_eq in Hx. apply IH in Ha. now subst.
  - intros H. injection H as -> ->. rewrite N.eqb_refl. now apply IH.
Qed.

Lemma lookup_field_property (fields : list (jsstring * JsValue))
  (k : jsstring) (x : JsValue) :
  NoDup (List.map fst fields) ->
  has_property fields k x ->
  lookup_field k fields = x.
Proof.
  induction fields as [|[k' y] rest IH]; intros Hnd Hp; simpl.
  - destruct Hp as [[] | [-> _]]. reflexivity.
  - simpl in Hnd. inversion Hnd as [|? ? Hnotin Hnd']; subst.
    destruct (str_eqb k k') eqn:E.
    + apply str_eqb_eq in E. subst k'.
      destruct Hp as [[Hin | Hin] | [_ Hn]].
      * now injection Hin.
      * exfalso. apply Hnotin. apply in_map_iff. now exists (k, x).
      * exfalso. apply Hn. now left.
    + apply IH; [exact Hnd'|].
      destruct Hp as [[Hin | Hin] | [-> Hn]].
      * injection Hin as -> _. rewrite (proj2 (str_eqb_eq k k) eq_refl) in E.
        discriminate.
      * now left.
      * right. split; [reflexivity|]. intros Hin. apply Hn. now right.
Qed.

(** C10.  In the revisions with a single probability, when the answer
    parses and the idea or the probability read from it is falsy, the entry
    pushed carries the values as read, not the placeholder, and no row is
    added.  For an object this is the value of the property when it is
    there (an empty string, 0, ...) and [undefined] when it is absent; an
    entry whose idea and probability are both absent is sent with its link
    alone. *)
Theorem falsy_fields_still_pushed_raw (v : Variant) (env : Env) (st : Store)
  (g : GenerateContentResult) (raw : jsstring) (i : nat) (topic : jsstring)
  (json : JsValue) :
  v <> Extended ->
  generateContent env SuggestCall prompt = Ok g ->
  response_text g = Ok raw ->
  nth_error (topics_of raw) i = Some topic ->
  stage_of v env i topic = Parsed json ->
  exists body,
    fst (search v env st) = Json200 body
    /\ (forall idea prob,
          get_prop json (lit "businessIdea") = Ok idea ->
          get_prop json (lit "gapProbability") = Ok prob ->
          truthy idea && truthy prob = false ->
          nth_error body i
          = Some [ ("link", JStr (redditUrl topic)); ("idea", idea);
                   ("probability", prob) ]%string
          /\ (forall st', db (alone v env i topic st') = st'))
    /\ (forall fields idea prob,
          json = JObj fields ->
          NoDup (List.map fst fields) ->
          has_property fields (lit "businessIdea") idea ->
          has_property fields (lit "gapProbability") prob ->
          truthy idea = false \/ truthy prob = false ->
          nth_error body i
          = Some [ ("link", JStr (redditUrl topic)); ("idea", idea);
                   ("probability", prob) ]%string
          /\ (forall st', db (alone v env i topic st') = st')
          /\ (idea = JUndefined -> prob = JUndefined ->
              option_map sent (nth_error body i)
              = Some [ ("link", JStr (redditUrl topic)) ]%string)).
Proof.
  intros Hv Hg Ht Hi H.
  rewrite (search_after_suggestion v env st g raw Hg Ht). simpl.
  exists (entries_from v env 0 (topics_of raw)).
  split; [reflexivity|].
  assert (A : forall idea prob,
             get_prop json (lit "businessIdea") = Ok idea ->
             get_prop json (lit "gapProbability") = Ok prob ->
             truthy idea && truthy prob = false ->
             forall st',
               alone v env i topic st'
               = mkState [simple_entry (redditUrl topic) idea prob] st').
  { intros idea prob Hidea Hprob Hfalsy st'. destruct v.
    - apply (nostore_parsed env i topic json idea prob st' H Hidea Hprob).
    - rewrite (simple_parsed env i topic json idea prob st' H Hidea Hprob).
      now rewrite Hfalsy.
    - now destruct Hv. }
  assert (B : forall idea prob,
             get_prop json (lit "businessIdea") = Ok idea ->
             get_prop json (lit "gapProbability") = Ok prob ->
             truthy idea && truthy prob = false ->
             nth_error (entries_from v env 0 (topics_of raw)) i
             = Some [ ("link", JStr (redditUrl topic)); ("idea", idea);
                      ("probability", prob) ]%string
             /\ (forall st', db (alone v env i topic st') = st')).
  { intros idea prob Hidea Hprob Hfalsy. split.
    - rewrite entries_from_nth, Hi. simpl. f_equal.
      apply (topic_entry_of_alone v env i topic empty_store _ empty_store).
      apply (A idea prob Hidea Hprob Hfalsy).
    - intros st'. now rewrite (A idea prob Hidea Hprob Hfalsy). }
  split; [exact B|].
  intros fields idea prob -> Hnd Pi Pp Hfalsy.
  assert (Hf : truthy idea && truthy prob = false).
  { apply andb_false_iff. exact Hfalsy. }
  destruct (B idea prob) as [E S]; try exact Hf.
  - simpl. f_equal. now apply lookup_field_property.
  - simpl. f_equal. now apply lookup_field_property.
  - split; [exact E|]. split; [exact S|].
    intros -> ->. rewrite E. reflexivity.
Qed.

Lemma falsy_fields_still_pushed_raw_witness :
  exists body,
    fst (search Simple falsy_env empty_store) = Json200 body
    /\ nth_error body 0
       = Some [ ("link", JStr (lit "https://www.reddit.com/r/personalfinance"));
                ("idea", JStr []); ("probability", JNum 0) ]%string
    /\ nth_error body 1
       = Some [ ("link", JStr (lit "https://www.reddit.com/r/Entrepreneur"));
                ("idea", JStr (lit "Budget coach")); ("probability", JNum 0) ]%string
    /\ option_map sent (nth_error body 2)
       = Some [ ("link", JStr (lit "https://www.reddit.com/r/smallbusiness")) ]%string
    /\ snd (search Simple falsy_env empty_store) = empty_store.
Proof.
  assert (Hv : Simple <> Extended) by discriminate.
  assert (Hnd : NoDup [lit "businessIdea"; lit "gapProbability"]).
  { constructor; [|constructor; [intros [] | constructor]].
    intros [E | []]. discriminate E. }
  destruct (falsy_fields_still_pushed_raw Simple falsy_env empty_store
              (suggested three_lines) three_lines 0 (lit "personalfinance")
              (JObj [ (lit "businessIdea", JStr []); (lit "gapProbability", JNum 0) ])
              Hv eq_refl eq_refl eq_refl eq_refl)
    as (body0 & Hb0 & _ & F0).
  destruct (falsy_fields_still_pushed_raw Simple falsy_env empty_store
              (suggested three_lines) three_lines 1 (lit "r/Entrepreneur")
              (JObj [ (lit "businessIdea", JStr (lit "Budget coach"));
                      (lit "gapProbability", JNum 0) ])
              Hv eq_refl eq_refl eq_refl eq_refl)
    as (body1 & Hb1 & _ & F1).
  destruct (falsy_fields_still_pushed_raw Simple falsy_env empty_store
              (suggested three_lines) three_lines 2 (lit " R/smallbusiness ")
              (JObj []) Hv eq_refl eq_refl eq_refl eq_refl)
    as (body2 & Hb2 & _ & F2).
  exists body0.
  assert (E1 : body1 = body0) by (rewrite Hb0 in Hb1; now injection Hb1).
  assert (E2 : body2 = body0) by (rewrite Hb0 in Hb2; now injection Hb2).
  subst body1 body2.
  split; [exact Hb0|]. split; [|split; [|split]].
  - apply (F0 _ (JStr []) (JNum 0) eq_refl Hnd).
    + left. left. reflexivity.
    + left. right. left. reflexivity.
    + left. reflexivity.
  - apply (F1 _ (JStr (lit "Budget coach")) (JNum 0) eq_refl Hnd).
    + left. left. reflexivity.
    + left. right. left. reflexivity.
    + right. reflexivity.
  - apply (F2 [] JUndefined JUndefined eq_refl (NoDup_nil _)).
    + right. split; [reflexivity | intros []].
    + right. split; [reflexivity | intros []].
    + left. reflexivity.
    + reflexivity.
    + reflexivity.
  - reflexivity.
Defined.

(** ** Code fences and JSON *)




(** * Further properties *)

(** ** Lines and topics *)

Lemma split_nonempty (sep : N) (s : jsstring) : split sep s <> [].
Proof.
  destruct s as [|c s]; simpl; [discriminate|].
  destruct (N.eqb c sep); [discriminate|].
  destruct (split sep s); discriminate.
Qed.

Lemma join_split (sep : N) (s : jsstring) : join sep (split sep s) = s.
Proof.
  induction s as [|c s IH]; [reflexivity|].
  simpl. destruct (N.eqb_spec c sep) as [->|Hne].
  - pose proof (split_nonempty sep s) as Hn.
    destruct (split sep s) as [|p ps]; [now destruct Hn|].
    cbn [join app]. cbn [join] in IH. now rewrite IH.
  - pose proof (split_nonempty sep s) as Hn.
    destruct (split sep s) as [|p ps]; [now destruct Hn|].
    destruct ps as [|q qs]; cbn [join app] in *; now rewrite IH.
Qed.

Lemma split_pieces_free (sep : N) (s piece : jsstring) :
  In piece (split sep s) -> ~ In sep piece.
Proof.
  revert piece. induction s as [|c s IH]; intros piece H; simpl in H.
  - destruct H as [<-|[]]. intros [].
  - destruct (N.eqb_spec c sep) as [->|Hne].
    + destruct H as [<-|H]; [intros []|now apply IH].
    + pose proof (split_nonempty sep s) as Hn.
      destruct (split sep s) as [|p ps]; [now destruct Hn|].
      destruct H as [<-|H].
      * intros [E|Hin]; [congruence|]. apply (IH p); [now left | exact Hin].
      * apply IH. now right.
Qed.

Lemma split_pieces_chars (sep : N) (s piece : jsstring) (c : N) :
  In piece (split sep s) -> In c piece -> In c s.
Proof.
  revert piece. induction s as [|d s IH]; intros piece H Hc; simpl in H.
  - destruct H as [<-|[]]. destruct Hc.
  - destruct (N.eqb_spec d sep) as [->|Hne].
    + destruct H as [<-|H]; [destruct Hc|]. right. now apply (IH piece).
    + pose proof (split_nonempty sep s) as Hn.
      destruct (split sep s) as [|p ps]; [now destruct Hn|].
      destruct H as [<-|H].
      * destruct Hc as [<-|Hc]; [now left|]. right. apply (IH p); [now left|exact Hc].
      * right. apply (IH piece); [now right | exact Hc].
Qed.

Lemma split_separators (sep : N) (s : jsstring) :
  List.length (split sep s) = S (count_occ N.eq_dec s sep).
Proof.
  induction s as [|c s IH]; [reflexivity|].
  simpl. destruct (N.eqb_spec c sep) as [->|Hne].
  - simpl. rewrite IH. destruct (N.eq_dec sep sep); [reflexivity | congruence].
  - pose proof (split_nonempty sep s) as Hn.
    destruct (split sep s) as [|p ps]; [now destruct Hn|].
    destruct (N.eq_dec c sep); [congruence|]. exact IH.
Qed.

Lemma trimStart_split (s : jsstring) :
  exists a, s = a ++ trimStart s /\ blank a = true.
Proof.
  induction s as [|c s (a & E & B)]; simpl.
  - now exists [].
  - destruct (is_ws c) eqn:W.
    + exists (c :: a). split; [simpl; now rewrite <- E|].
      unfold blank in *. simpl. now rewrite W.
    + now exists [].
Qed.

Lemma trimStart_starts (s : jsstring) : starts_ws (trimStart s) = false.
Proof.
  pose proof (trimStart_head s) as H.
  destruct (trimStart s); [reflexivity | exact H].
Qed.

Lemma trimEnd_split (s : jsstring) :
  exists b, s = trimEnd s ++ b /\ blank b = true.
Proof.
  unfold trimEnd. destruct (trimStart_split (rev s)) as (a & E & B).
  exists (rev a). split.
  - rewrite <- rev_app_distr, <- E. now rewrite rev_involutive.
  - now rewrite blank_rev.
Qed.

Lemma trimEnd_ends (s : jsstring) : ends_ws (trimEnd s) = false.
Proof.
  unfold ends_ws, trimEnd. rewrite rev_involutive. apply trimStart_starts.
Qed.

Lemma trimEnd_starts (s : jsstring) :
  starts_ws s = false -> starts_ws (trimEnd s) = false.
Proof.
  intros H. destruct (trimEnd_split s) as (b & E & B).
  destruct (trimEnd s) as [|c t] eqn:T; [reflexivity|].
  rewrite E in H. exact H.
Qed.

Theorem trim_is_the_core (s : jsstring) :
  exists a b,
    s = a ++ trim s ++ b
    /\ blank a = true /\ blank b = true
    /\ starts_ws (trim s) = false /\ ends_ws (trim s) = false.
Proof.
  unfold trim.
  destruct (trimStart_split s) as (a & Ea & Ba).
  destruct (trimEnd_split (trimStart s)) as (b & Eb & Bb).
  exists a, b. repeat split; try assumption.
  - now rewrite <- Eb.
  - apply trimEnd_starts, trimStart_starts.
  - apply trimEnd_ends.
Qed.

Lemma trimStart_fixed (s : jsstring) : starts_ws s = false -> trimStart s = s.
Proof. destruct s as [|c s]; simpl; [reflexivity|]. now intros ->. Qed.

Lemma trimEnd_fixed (s : jsstring) : ends_ws s = false -> trimEnd s = s.
Proof.
  unfold ends_ws, trimEnd. intros H.
  rewrite trimStart_fixed; [apply rev_involutive|].
  destruct (rev s); [reflexivity | exact H].
Qed.

Lemma trim_fixed (s : jsstring) :
  starts_ws s = false -> ends_ws s = false -> trim s = s.
Proof.
  intros Hs He. unfold trim. rewrite (trimStart_fixed s Hs). now apply trimEnd_fixed.
Qed.

Lemma trim_idempotent (s : jsstring) : trim (trim s) = trim s.
Proof.
  destruct (trim_is_the_core s) as (a & b & _ & _ & _ & Hs & He).
  now apply trim_fixed.
Qed.

Lemma blank_pieces (raw piece : jsstring) :
  blank raw = true -> In piece (split LF raw) -> blank piece = true.
Proof.
  unfold blank. rewrite !forallb_forall. intros H Hp c Hc.
  apply H. now apply (split_pieces_chars LF raw piece).
Qed.

Lemma filter_none {A : Type} (f : A -> bool) (l : list A) :
  (forall x, In x l -> f x = false) -> filter f l = [].
Proof.
  induction l as [|x l IH]; intros H; [reflexivity|].
  simpl. rewrite (H x (or_introl eq_refl)). apply IH.
  intros y Hy. apply H. now right.
Qed.

Lemma blank_has_no_topics (raw : jsstring) :
  blank raw = true -> topics_of raw = [].
Proof.
  intros H. rewrite topics_are_nonblank_lines. unfold nonblank_lines.
  apply filter_none. intros piece Hp.
  now rewrite (blank_pieces raw piece H Hp).
Qed.

(** X1.  When the text of the suggestion is empty or all white space, the
    request answers 200 with an empty array and leaves the store as it
    was. *)
Theorem blank_suggestion_gives_empty_array (v : Variant) (env : Env)
  (st : Store) (g : GenerateContentResult) (raw : jsstring) :
  generateContent env SuggestCall prompt = Ok g ->
  response_text g = Ok raw ->
  blank raw = true ->
  search v env st = (Json200 [], st).
Proof.
  intros Hg Ht Hb.
  rewrite (search_after_suggestion v env st g raw Hg Ht).
  now rewrite (blank_has_no_topics raw Hb).
Qed.

Lemma blank_suggestion_gives_empty_array_witness :
  search Simple blank_env tie_store = (Json200 [], tie_store).
Proof.
  apply (blank_suggestion_gives_empty_array Simple blank_env tie_store
           (suggested (lit "  " ++ [LF] ++ lit " ")) (lit "  " ++ [LF] ++ lit " ")
           eq_refl eq_refl eq_refl).
Defined.

Lemma ends_ws_suffix (m rest : jsstring) :
  ends_ws (m ++ rest) = false -> ends_ws rest = false.
Proof.
  unfold ends_ws. rewrite rev_app_distr.
  destruct (rev rest) as [|c t]; [reflexivity|]. simpl. trivial.
Qed.

Lemma strip_r_slash_split (t : jsstring) :
  exists m,
    t = m ++ strip_r_slash t
    /\ (m = [] \/ m = lit "r/" \/ m = lit "R/").
Proof.
  unfold strip_r_slash.
  destruct t as [|c1 [|c2 rest]]; try (exists []; split; [reflexivity | now left]).
  destruct (N.eqb_spec c2 47) as [->|]; cbn [andb];
    [|rewrite andb_false_r; exists []; split; [reflexivity | now left]].
  destruct (N.eqb_spec c1 114) as [->|].
  - exists (lit "r/"). split; [reflexivity | right; now left].
  - destruct (N.eqb_spec c1 82) as [->|].
    + exists (lit "R/"). split; [reflexivity | right; now right].
    + exists []. split; [reflexivity | now left].
Qed.

(** X3.  The normalised topic is a contiguous part of the line: the line is
    white space, an optional "r/" or "R/", the normalised topic, and white
    space; the normalised topic never ends in white space. *)
Theorem normalised_topic_is_part_of_the_line (topic : jsstring) :
  exists a m b,
    topic = a ++ m ++ sanitizedTopic topic ++ b
    /\ blank a = true /\ blank b = true
    /\ (m = [] \/ m = lit "r/" \/ m = lit "R/")
    /\ ends_ws (sanitizedTopic topic) = false.
Proof.
  unfold sanitizedTopic.
  destruct (trim_is_the_core topic) as (a & b & E & Ba & Bb & _ & He).
  destruct (strip_r_slash_split (trim topic)) as (m & Em & Hm).
  exists a, m, b. repeat split; try assumption.
  - assert (X : m ++ strip_r_slash (trim topic) ++ b = trim topic ++ b)
      by (rewrite app_assoc; now rewrite <- Em).
    rewrite X. exact E.
  - rewrite Em in He. now apply ends_ws_suffix in He.
Qed.

(** X4.  The normalised topic is empty exactly when the trimmed line is
    empty, "r/" or "R/"; so a suggested (non-blank) line gives the URL with
    an empty name, https://www.reddit.com/r/, exactly when it is the bare
    marker. *)
Theorem empty_name_only_from_bare_marker (topic : jsstring) :
  (sanitizedTopic topic = []
   <-> trim topic = [] \/ trim topic = lit "r/" \/ trim topic = lit "R/")
  /\ (blank topic = false ->
      (redditUrl topic = lit "https://www.reddit.com/r/"
       <-> trim topic = lit "r/" \/ trim topic = lit "R/")).
Proof.
  assert (A : sanitizedTopic topic = []
              <-> trim topic = [] \/ trim topic = lit "r/" \/ trim topic = lit "R/").
  { unfold sanitizedTopic.
    destruct (strip_r_slash_split (trim topic)) as (m & Em & Hm). split.
    - intros H. rewrite H, app_nil_r in Em. rewrite Em. exact Hm.
    - intros [H | [H | H]]; rewrite H; reflexivity. }
  split; [exact A|]. intros Hb.
  assert (Hne : trim topic <> []).
  { intros H. apply trim_nil in H. congruence. }
  unfold redditUrl. split.
  - intros H.
    assert (E : sanitizedTopic topic = []).
    { apply (app_inv_head (lit "https://www.reddit.com/r/")).
      now rewrite app_nil_r. }
    apply A in E. destruct E as [E | E]; [now destruct Hne | exact E].
  - intros H. assert (E : sanitizedTopic topic = []) by (apply A; now right).
    rewrite E. apply app_nil_r.
Qed.

Lemma empty_name_only_from_bare_marker_witness :
  redditUrl (lit " r/ ") = lit "https://www.reddit.com/r/".
Proof.
  apply (proj2 (empty_name_only_from_bare_marker (lit " r/ ")) eq_refl).
  left. reflexivity.
Defined.

Lemma sanitized_chars (topic : jsstring) (c : N) :
  In c (sanitizedTopic topic) -> In c topic.
Proof.
  destruct (normalised_topic_is_part_of_the_line topic) as (a & m & b & E & _).
  intros H. rewrite E. apply in_or_app. right. apply in_or_app. right.
  apply in_or_app. now left.
Qed.

(** X2.  Splitting the raw suggestion loses nothing: joining the lines with
    line feeds gives the text back, and there is one line more than there
    are line feeds.  Every topic is one of these lines, is not blank, and
    neither it nor the URL built from it holds a line feed. *)
Theorem suggested_lines_round_trip (raw : jsstring) :
  join LF (split LF raw) = raw
  /\ List.length (split LF raw) = S (count_occ N.eq_dec raw LF)
  /\ (forall topic,
        In topic (topics_of raw) ->
        In topic (split LF raw)
        /\ blank topic = false
        /\ ~ In LF topic
        /\ ~ In LF (redditUrl topic)).
Proof.
  split; [apply join_split|]. split; [apply split_separators|].
  intros topic H. rewrite topics_are_nonblank_lines in H.
  unfold nonblank_lines in H. apply filter_In in H. destruct H as [Hl Hb].
  apply negb_true_iff in Hb.
  pose proof (split_pieces_free LF raw topic Hl) as Hfree.
  repeat split; try assumption.
  unfold redditUrl. intros Hin. apply in_app_or in Hin. destruct Hin as [Hin | Hin].
  - revert Hin. vm_compute. intuition discriminate.
  - apply Hfree. now apply sanitized_chars.
Qed.

Lemma suggested_lines_round_trip_witness :
  join LF (split LF three_lines) = three_lines
  /\ List.length (split LF three_lines) = 4%nat
  /\ ~ In LF (redditUrl (lit " R/smallbusiness ")).
Proof.
  destruct (suggested_lines_round_trip three_lines) as (Hj & Hl & Ht).
  split; [exact Hj|]. split; [exact Hl|].
  apply (Ht (lit " R/smallbusiness ")).
  right. right. left. reflexivity.
Defined.

(** ** The text handed to the parser *)

Lemma unfenced_head (s : jsstring) :
  startsWith [BACKTICK] s = false -> startsWith [BACKTICK] (unfenced s) = false.
Proof.
  unfold unfenced, replaceAll. destruct s as [|c s]; [reflexivity|].
  change (lit "```") with [96; 96; 96]%N. cbn [startsWith replace_from].
  unfold BACKTICK. intros H. rewrite andb_true_r in H. rewrite H. cbn [andb].
  cbn [startsWith]. now rewrite H.
Qed.

Lemma unfenced_cons_other (c : N) (s : jsstring) :
  (96 =? c)%N = false -> unfenced (c :: s) = c :: unfenced s.
Proof.
  intros H. unfold unfenced, replaceAll.
  change (lit "```") with [96; 96; 96]%N. cbn [startsWith replace_from].
  now rewrite H.
Qed.

Lemma unfenced_one (s : jsstring) :
  startsWith [BACKTICK] s = false -> unfenced (96%N :: s) = 96%N :: unfenced s.
Proof.
  intros H. unfold unfenced, replaceAll.
  change (lit "```") with [96; 96; 96]%N. cbn [replace_from].
  replace (startsWith [96; 96; 96]%N (96%N :: s)) with false; [reflexivity|].
  destruct s as [|c s]; [reflexivity|].
  cbn [startsWith] in *. unfold BACKTICK in H. rewrite andb_true_r in H.
  now rewrite H.
Qed.

Lemma unfenced_two (s : jsstring) :
  startsWith [BACKTICK] s = false ->
  unfenced (96%N :: 96%N :: s) = 96%N :: 96%N :: unfenced s.
Proof.
  intros H. unfold unfenced, replaceAll.
  change (lit "```") with [96; 96; 96]%N.
  assert (E : startsWith [96; 96; 96]%N (96%N :: 96%N :: s) = false).
  { destruct s as [|c s]; [reflexivity|].
    cbn [startsWith] in *. unfold BACKTICK in H. rewrite andb_true_r in H.
    rewrite H. now rewrite !andb_false_r. }
  cbn [replace_from]. rewrite E. f_equal.
  apply (unfenced_one s H).
Qed.

Lemma unfenced_three (s : jsstring) :
  unfenced (96%N :: 96%N :: 96%N :: s) = unfenced s.
Proof.
  unfold unfenced, replaceAll.
  change (lit "```") with [96; 96; 96]%N.
  change (96%N :: 96%N :: 96%N :: s) with ([96; 96; 96]%N ++ s).
  now rewrite replace_match.
Qed.

Lemma no_fence_cons (c : N) (s : jsstring) :
  no_fence (c :: s) = negb (startsWith (lit "```") (c :: s)) && no_fence s.
Proof. reflexivity. Qed.

Lemma unfenced_no_fence_upto (n : nat) :
  forall s, (List.length s <= n)%nat -> no_fence (unfenced s) = true.
Proof.
  induction n as [|n IH]; intros s Hlen.
  - destruct s; [reflexivity | simpl in Hlen; lia].
  - destruct s as [|c s]; [reflexivity|].
    simpl in Hlen.
    destruct (N.eqb_spec 96 c) as [<-|Hc].
    + (* a backtick: how many follow *)
      destruct s as [|c2 s].
      * reflexivity.
      * destruct (N.eqb_spec 96 c2) as [<-|Hc2].
        -- destruct s as [|c3 s].
           ++ reflexivity.
           ++ destruct (N.eqb_spec 96 c3) as [<-|Hc3].
              ** rewrite unfenced_three. apply IH. simpl in Hlen. lia.
              ** assert (H3 : startsWith [BACKTICK] (c3 :: s) = false).
                 { cbn [startsWith]. unfold BACKTICK.
                   apply N.eqb_neq in Hc3. now rewrite Hc3. }
                 rewrite (unfenced_two _ H3).
                 pose proof (unfenced_head _ H3) as Hh.
                 pose proof (IH (c3 :: s) ltac:(simpl in *; lia)) as Hn.
                 rewrite !no_fence_cons, Hn.
                 change (lit "```") with [96; 96; 96]%N.
                 destruct (unfenced (c3 :: s)) as [|d t]; [reflexivity|].
                 cbn [startsWith] in *. unfold BACKTICK in Hh.
                 rewrite andb_true_r in Hh. rewrite Hh.
                 now rewrite !andb_false_r.
        -- assert (H2 : startsWith [BACKTICK] (c2 :: s) = false).
           { cbn [startsWith]. unfold BACKTICK.
             apply N.eqb_neq in Hc2. now rewrite Hc2. }
           rewrite (unfenced_one _ H2).
           pose proof (unfenced_head _ H2) as Hh.
           pose proof (IH (c2 :: s) ltac:(simpl in *; lia)) as Hn.
           rewrite no_fence_cons, Hn.
           change (lit "```") with [96; 96; 96]%N.
           destruct (unfenced (c2 :: s)) as [|d t]; [reflexivity|].
           cbn [startsWith] in *. unfold BACKTICK in Hh.
           rewrite andb_true_r in Hh. rewrite Hh.
           now rewrite !andb_false_r.
    + apply N.eqb_neq in Hc. rewrite (unfenced_cons_other c s Hc).
      rewrite no_fence_cons, (IH s ltac:(lia)).
      change (lit "```") with [96; 96; 96]%N. cbn [startsWith]. now rewrite Hc.
Qed.

Lemma unfenced_no_fence (s : jsstring) : no_fence (unfenced s) = true.
Proof. apply (unfenced_no_fence_upto (List.length s)). lia. Qed.

Lemma startsWith_app_r (pat s t : jsstring) :
  startsWith pat s = true -> startsWith pat (s ++ t) = true.
Proof.
  revert s. induction pat as [|p pat IH]; intros s H; [reflexivity|].
  destruct s as [|c s]; [discriminate|]. cbn [startsWith app] in *.
  apply andb_true_iff in H. destruct H as [-> H]. now rewrite (IH s H).
Qed.

Lemma no_fence_prefix (x y : jsstring) :
  no_fence (x ++ y) = true -> no_fence x = true.
Proof.
  induction x as [|c x IH]; intros H; [reflexivity|].
  change ((c :: x) ++ y) with (c :: (x ++ y)) in H.
  rewrite no_fence_cons in *. apply andb_true_iff in H. destruct H as [Hc Hx].
  rewrite (IH Hx), andb_true_r.
  destruct (startsWith (lit "```") (c :: x)) eqn:E; [|reflexivity].
  apply (startsWith_app_r _ _ y) in E.
  change ((c :: x) ++ y) with (c :: (x ++ y)) in E. now rewrite E in Hc.
Qed.

Lemma no_fence_suffix (x y : jsstring) :
  no_fence (x ++ y) = true -> no_fence y = true.
Proof.
  induction x as [|c x IH]; intros H; [exact H|].
  apply IH. now apply (no_fence_tail c).
Qed.

Lemma no_fence_trim (s : jsstring) : no_fence s = true -> no_fence (trim s) = true.
Proof.
  intros H. destruct (trim_is_the_core s) as (a & b & E & _).
  rewrite E in H. apply no_fence_suffix in H. now apply no_fence_prefix in H.
Qed.

(** X5.  The text handed to [JSON.parse] never holds three backticks in a
    row and neither starts nor ends with white space; cleaning a cleaned
    text changes nothing. *)
Theorem cleaned_text_has_no_fence (text : jsstring) :
  no_fence (cleanedJsonText text) = true
  /\ starts_ws (cleanedJsonText text) = false
  /\ ends_ws (cleanedJsonText text) = false
  /\ cleanedJsonText (cleanedJsonText text) = cleanedJsonText text.
Proof.
  assert (Hn : no_fence (cleanedJsonText text) = true).
  { unfold cleanedJsonText. apply no_fence_trim, unfenced_no_fence. }
  destruct (trim_is_the_core
              (replaceAll (lit "```") [] (replaceAll (lit "```json") [] text)))
    as (a & b & _ & _ & _ & Hs & He).
  fold (cleanedJsonText text) in Hs, He.
  repeat split; try assumption.
  destruct (cleaned_fenced [] (cleanedJsonText text) [] eq_refl eq_refl Hn)
    as [_ E].
  rewrite E. now apply trim_fixed.
Qed.

(** ** What a request does to the store *)

Lemma alone_effect v env i topic st :
  db (alone v env i topic st) = st
  \/ exists params now,
       db (alone v env i topic st) = insert_row params now st
       /\ sqlite_insert env i params = Ok now
       /\ row_matches_entry v (mkRow (last_id st + 1) params now)
            (topic_entry v env i topic).
Proof.
  unfold topic_entry.
  destruct v; run_handler; repeat (break_match; simpl);
    first [ left; reflexivity
          | right; do 2 eexists; split; [reflexivity|]; split; [eassumption|];
            repeat eexists;
            match goal with
            | H : _ && _ = true |- _ => apply andb_true_iff in H; apply H
            | H : truthy _ = true |- _ => exact H
            end ].
Qed.

Lemma ids_from_length last k : List.length (ids_from last k) = k.
Proof. revert last. induction k; intros last; simpl; [reflexivity | now rewrite IHk]. Qed.

Lemma store_from_effect v env topics :
  forall i st,
  exists added,
    rows (store_from v env i topics st) = rows st ++ added
    /\ last_id (store_from v env i topics st)
       = (last_id st + Z.of_nat (List.length added))%Z
    /\ List.map id added = ids_from (last_id st) (List.length added)
    /\ (List.length added <= List.length topics)%nat
    /\ forall r, In r added ->
                 exists entry, In entry (entries_from v env i topics)
                               /\ row_matches_entry v r entry.
Proof.
  induction topics as [|topic rest IH]; intros i st; cbn [store_from entries_from].
  - exists []. rewrite app_nil_r. simpl.
    split; [reflexivity|]. split; [lia|]. split; [reflexivity|]. split; [lia|].
    intros r [].
  - rewrite alone_single.
    destruct (IH (S i) (db (alone v env i topic st))) as (added & Hr & Hl & Hi & Hn & Hm).
    destruct (alone_effect v env i topic st) as [E | (params & now & E & _ & Hrow)];
      rewrite E in *.
    + exists added. split; [exact Hr|]. split; [exact Hl|]. split; [exact Hi|].
      split; [simpl; lia|].
      intros r Hin. destruct (Hm r Hin) as (entry & He & Hme).
      exists entry. split; [now right | exact Hme].
    + exists (mkRow (last_id st + 1) params now :: added).
      unfold insert_row in *. cbn [rows last_id] in Hr, Hl, Hi.
      split; [|split; [|split; [|split]]].
      * rewrite Hr. now rewrite <- app_assoc.
      * rewrite Hl. cbn [List.length]. lia.
      * cbn [List.map List.length ids_from id]. now rewrite Hi.
      * simpl. lia.
      * intros r [<- | Hin].
        -- exists (topic_entry v env i topic). split; [now left | exact Hrow].
        -- destruct (Hm r Hin) as (entry & He & Hme).
           exists entry. split; [now right | exact Hme].
Qed.

(** what /search leaves in the store: nothing new, or what the loop left *)
Lemma search_store v env st :
  (snd (search v env st) = st
   /\ forall body, fst (search v env st) <> Json200 body)
  \/ exists g raw,
       generateContent env SuggestCall prompt = Ok g
       /\ response_text g = Ok raw
       /\ search v env st
          = (Json200 (entries_from v env 0 (topics_of raw)),
             store_from v env 0 (topics_of raw) st).
Proof.
  destruct (generateContent env SuggestCall prompt) as [g|e] eqn:Hg.
  - destruct (response_text g) as [raw|e] eqn:Ht.
    + right. exists g, raw. repeat split; try assumption.
      now apply (search_after_suggestion v env st g raw).
    + left. unfold search, search_try. rewrite Hg. unfold bind, await. rewrite Ht.
      simpl. split; [reflexivity | discriminate].
  - left. unfold search, search_try. rewrite Hg. simpl.
    split; [reflexivity | discriminate].
Qed.

Lemma sorted_snoc {A : Type} (R : A -> A -> Prop) (l : list A) (a : A) :
  StronglySorted R l -> Forall (fun x => R x a) l -> StronglySorted R (l ++ [a]).
Proof.
  induction 1 as [|x l Hs IH Hx]; intros Ha; simpl.
  - repeat constructor.
  - inversion Ha; subst. constructor; [now apply IH|].
    apply Forall_app. split; [exact Hx | now repeat constructor].
Qed.

Lemma well_formed_insert params now st :
  well_formed st -> well_formed (insert_row params now st).
Proof.
  intros (H0 & Hs & Hb). unfold well_formed, insert_row. cbn [rows last_id].
  split; [lia|]. split.
  - apply sorted_snoc; [exact Hs|].
    eapply Forall_impl; [|exact Hb]. cbn [id]. intros r Hr. lia.
  - apply Forall_app. split.
    + eapply Forall_impl; [|exact Hb]. intros r Hr. cbn beta in *. lia.
    + repeat constructor; cbn [id]; lia.
Qed.

Lemma well_formed_store_from v env topics :
  forall i st, well_formed st -> well_formed (store_from v env i topics st).
Proof.
  induction topics as [|topic rest IH]; intros i st H; cbn [store_from]; [exact H|].
  apply IH.
  destruct (alone_effect v env i topic st) as [E | (params & now & E & _)];
    rewrite E; [exact H | now apply well_formed_insert].
Qed.

Lemma search_appends_rows_helper v env st :
  exists added, rows (snd (search v env st)) = rows st ++ added.
Proof.
  destruct (search_store v env st) as [[E _] | (g & raw & _ & _ & E)]; rewrite E.
  - exists []. now rewrite app_nil_r.
  - destruct (store_from_effect v env (topics_of raw) 0 st) as (added & Hr & _).
    now exists added.
Qed.

Lemma empty_store_well_formed : well_formed empty_store.
Proof.
  unfold well_formed, empty_store. simpl.
  split; [lia|]. split; constructor.
Qed.

(** X6.  A request only appends to the table: the rows it leaves are the
    rows it found followed by new ones, the new keys are the next integers
    after the sequence counter, which advances by the number of new rows;
    so keys stay increasing and within the counter. *)
Theorem search_appends_rows_with_fresh_ids (v : Variant) (env : Env) (st : Store) :
  exists added,
    rows (snd (search v env st)) = rows st ++ added
    /\ last_id (snd (search v env st))
       = (last_id st + Z.of_nat (List.length added))%Z
    /\ List.map id added = ids_from (last_id st) (List.length added)
    /\ (well_formed st -> well_formed (snd (search v env st))).
Proof.
  destruct (search_store v env st) as [[E _] | (g & raw & _ & _ & E)]; rewrite E.
  - exists []. rewrite app_nil_r. simpl.
    split; [reflexivity|]. split; [lia|]. split; [reflexivity | trivial].
  - cbn [snd].
    destruct (store_from_effect v env (topics_of raw) 0 st)
      as (added & Hr & Hl & Hi & _ & _).
    exists added. split; [exact Hr|]. split; [exact Hl|]. split; [exact Hi|].
    apply well_formed_store_from.
Qed.

Lemma search_appends_rows_with_fresh_ids_witness :
  well_formed (snd (search Simple demo_env empty_store))
  /\ List.map id (rows (snd (search Simple demo_env empty_store))) = [1; 2; 3]%Z.
Proof.
  destruct (search_appends_rows_with_fresh_ids Simple demo_env empty_store)
    as (added & Hr & Hl & Hi & Hw).
  split; [exact (Hw empty_store_well_formed) | reflexivity].
Defined.

(** X7.  Every row a request adds was inserted with what its response
    shows: some entry has the link, idea and scores that the INSERT of the
    row was bound to, and these passed the guard of the revision; there are
    no more new rows than entries.  (A row is kept here as its bound
    parameters; what the table makes of them by column type is the
    engine's.) *)
Theorem stored_rows_match_response_entries (v : Variant) (env : Env)
  (st : Store) (body : list Entry) :
  fst (search v env st) = Json200 body ->
  exists added,
    rows (snd (search v env st)) = rows st ++ added
    /\ (List.length added <= List.length body)%nat
    /\ forall r, In r added ->
                 exists entry, In entry body /\ row_matches_entry v r entry.
Proof.
  intros Hbody.
  destruct (search_store v env st) as [[_ Hno] | (g & raw & _ & _ & E)].
  - now destruct (Hno body).
  - rewrite E in *. cbn [fst snd] in *. injection Hbody as <-.
    destruct (store_from_effect v env (topics_of raw) 0 st)
      as (added & Hr & _ & _ & Hn & Hm).
    exists added. split; [exact Hr|]. split; [|exact Hm].
    now rewrite entries_from_length.
Qed.

Lemma stored_rows_match_response_entries_witness :
  exists added,
    rows (snd (search Simple demo_env empty_store)) = added
    /\ forall r, In r added ->
                 exists entry,
                   In entry (body_of (fst (search Simple demo_env empty_store)))
                   /\ row_matches_entry Simple r entry.
Proof.
  destruct (stored_rows_match_response_entries Simple demo_env empty_store
              (body_of (fst (search Simple demo_env empty_store))) eq_refl)
    as (added & Hr & _ & Hm).
  exists added. split; [exact Hr | exact Hm].
Defined.

(** X8.  With an engine that answers the query as written, a /history
    after a /search lists every row that was there before the search, and
    lists only rows of the table. *)
Theorem history_after_search_keeps_every_row (v : Variant) (env : Env)
  (db_all : Engine) (st : Store) (h : list Row) :
  engine_sound db_all ->
  history db_all (snd (search v env st)) = History200 h ->
  (forall r, In r (rows st) -> In r h)
  /\ (forall r, In r h -> In r (rows (snd (search v env st))))
  /\ (List.length (rows st) <= List.length h)%nat.
Proof.
  intros Hsound Hh. unfold history in Hh.
  destruct (db_all (rows (snd (search v env st)))) as [found|e] eqn:E;
    [|discriminate]. injection Hh as ->.
  destruct (Hsound _ _ E) as [P _].
  destruct (search_appends_rows_helper v env st) as (added & Hr).
  split; [|split].
  - intros r Hin. apply (Permutation_in _ P). rewrite Hr.
    apply in_or_app. now left.
  - intros r Hin. apply (Permutation_in _ (Permutation_sym P) Hin).
  - rewrite <- (Permutation_length P), Hr, length_app. lia.
Qed.

Lemma history_after_search_keeps_every_row_witness :
  In (mkRow 1 [JStr (lit "https://www.reddit.com/r/a"); JStr (lit "first"); JNum 70]
        1700000000)
     (scan_sorted (rows (snd (search Simple demo_env tie_store)))).
Proof.
  assert (H : history stable_engine (snd (search Simple demo_env tie_store))
              = History200
                  (scan_sorted (rows (snd (search Simple demo_env tie_store)))))
    by (unfold history, stable_engine; reflexivity).
  apply (proj1 (history_after_search_keeps_every_row Simple demo_env
                  stable_engine tie_store _ stable_engine_sound H)).
  left. reflexivity.
Defined.

(** ** Answers of an unexpected shape *)

(** X10.  An answer that parses to [null] gives the analysis placeholder
    (reading its property throws); one that parses to a boolean, number,
    string or array gives, in the single-probability revisions, an entry
    whose idea and probability are [undefined].  Neither stores a row, in
    any revision. *)
Theorem non_object_answers_store_nothing (v : Variant) (env : Env) (i : nat)
  (topic : jsstring) (json : JsValue) :
  stage_of v env i topic = Parsed json ->
  (json = JNull -> topic_entry v env i topic = analysis_failed v topic)
  /\ (plain_value json = true -> v <> Extended ->
      topic_entry v env i topic
      = simple_entry (redditUrl topic) JUndefined JUndefined)
  /\ ((json = JNull \/ plain_value json = true) ->
      forall st, db (alone v env i topic st) = st).
Proof.
  intros H. split; [|split].
  - intros ->. unfold topic_entry. rewrite (parsed_alone v env i topic _ _ H).
    destruct v; reflexivity.
  - intros Hp Hv. unfold topic_entry. rewrite (parsed_alone v env i topic _ _ H).
    destruct v; [| |now destruct Hv]; destruct json; try discriminate Hp; reflexivity.
  - intros Hj st. rewrite (parsed_alone v env i topic _ _ H).
    destruct Hj as [-> | Hp].
    + destruct v; reflexivity.
    + destruct v; destruct json; try discriminate Hp;
        unfold use_analysis, try_catch, bind, await, push, db_run, ret; simpl;
        repeat (break_match; simpl); reflexivity.
Qed.

Lemma non_object_answers_store_nothing_witness :
  topic_entry Extended null_env 0 (lit "personalfinance")
  = analysis_failed Extended (lit "personalfinance")
  /\ db (alone Extended null_env 0 (lit "personalfinance") tie_store) = tie_store.
Proof.
  destruct (non_object_answers_store_nothing Extended null_env 0
              (lit "personalfinance") JNull eq_refl) as (Hn & _ & Hs).
  split; [exact (Hn eq_refl) | exact (Hs (or_introl eq_refl) tie_store)].
Defined.

(** ** The overall score, further *)

Lemma overall_reads_back (p a m f : Z) :
  valid_score p -> valid_score a -> valid_score m -> valid_score f ->
  read_tenths (toFixed1_of_quarters (p + a + m + f))
  = Some (tenths_of_quarters (p + a + m + f)).
Proof.
  unfold valid_score. intros Hp Ha Hm Hf.
  assert (HS : (0 <= p + a + m + f <= 400)%Z) by lia.
  pose proof (rounds_to_tenth_valid _ HS) as H. unfold rounds_to_tenth in H.
  destruct (read_tenths (toFixed1_of_quarters (p + a + m + f))) as [n|];
    [|discriminate].
  apply andb_true_iff in H. destruct H as [_ H]. apply Z.eqb_eq in H. now subst.
Qed.

Lemma valid_score_witness (x : Z) : (0 <=? x)%Z && (x <=? 100)%Z = true -> valid_score x.
Proof. intros H. apply andb_true_iff in H. unfold valid_score. lia. Qed.

(** X11.  For sub-scores between 0 and 100 the overall score reads back as
    a number of tenths between ten times the smallest and ten times the
    largest sub-score, hence between 0.0 and 100.0. *)
Theorem overall_lies_between_the_sub_scores (env : Env) (p a m f : Z) :
  valid_score p -> valid_score a -> valid_score m -> valid_score f ->
  exists s n,
    overallScore env (JNum p) (JNum a) (JNum m) (JNum f) = Ok s
    /\ read_tenths s = Some n
    /\ (10 * min4 p a m f <= n <= 10 * max4 p a m f)%Z
    /\ (0 <= n <= 1000)%Z.
Proof.
  intros Hp Ha Hm Hf.
  exists (toFixed1_of_quarters (p + a + m + f)), (tenths_of_quarters (p + a + m + f)).
  split; [reflexivity|]. split; [now apply overall_reads_back|].
  unfold valid_score, tenths_of_quarters, min4, max4 in *.
  assert (E : Z.abs (p + a + m + f) = (p + a + m + f)%Z) by lia. rewrite E.
  pose proof (Z.div_mod (5 * (p + a + m + f) + 1) 2 ltac:(lia)) as D.
  pose proof (Z.mod_pos_bound (5 * (p + a + m + f) + 1) 2 ltac:(lia)) as B.
  lia.
Qed.

Lemma overall_lies_between_the_sub_scores_witness :
  exists s n,
    overallScore demo_env_extended (JNum 80) (JNum 60) (JNum 40) (JNum 90) = Ok s
    /\ read_tenths s = Some n
    /\ (400 <= n <= 900)%Z.
Proof.
  destruct (overall_lies_between_the_sub_scores demo_env_extended 80 60 40 90
              (valid_score_witness 80 eq_refl) (valid_score_witness 60 eq_refl)
              (valid_score_witness 40 eq_refl) (valid_score_witness 90 eq_refl))
    as (s & n & Ho & Hr & Hb & _).
  exists s, n. split; [exact Ho|]. split; [exact Hr | exact Hb].
Defined.

(** X12.  Raising sub-scores (within 0 to 100) never lowers the overall
    score. *)
Theorem overall_never_drops_when_a_score_rises (env : Env)
  (p a m f p' a' m' f' : Z) :
  valid_score p -> valid_score a -> valid_score m -> valid_score f ->
  valid_score p' -> valid_score a' -> valid_score m' -> valid_score f' ->
  (p <= p')%Z -> (a <= a')%Z -> (m <= m')%Z -> (f <= f')%Z ->
  exists s s' n n',
    overallScore env (JNum p) (JNum a) (JNum m) (JNum f) = Ok s
    /\ overallScore env (JNum p') (JNum a') (JNum m') (JNum f') = Ok s'
    /\ read_tenths s = Some n /\ read_tenths s' = Some n'
    /\ (n <= n')%Z.
Proof.
  intros Hp Ha Hm Hf Hp' Ha' Hm' Hf' Lp La Lm Lf.
  exists (toFixed1_of_quarters (p + a + m + f)),
         (toFixed1_of_quarters (p' + a' + m' + f')),
         (tenths_of_quarters (p + a + m + f)),
         (tenths_of_quarters (p' + a' + m' + f')).
  split; [reflexivity|]. split; [reflexivity|].
  split; [now apply overall_reads_back|]. split; [now apply overall_reads_back|].
  unfold valid_score, tenths_of_quarters in *.
  apply Z.div_le_mono; lia.
Qed.

Lemma overall_never_drops_when_a_score_rises_witness :
  exists s s' n n',
    overallScore demo_env_extended (JNum 80) (JNum 60) (JNum 40) (JNum 90) = Ok s
    /\ overallScore demo_env_extended (JNum 80) (JNum 61) (JNum 40) (JNum 90) = Ok s'
    /\ read_tenths s = Some n /\ read_tenths s' = Some n'
    /\ (n <= n')%Z.
Proof.
  apply (overall_never_drops_when_a_score_rises demo_env_extended
           80 60 40 90 80 61 40 90
           (valid_score_witness 80 eq_refl) (valid_score_witness 60 eq_refl)
           (valid_score_witness 40 eq_refl) (valid_score_witness 90 eq_refl)
           (valid_score_witness 80 eq_refl) (valid_score_witness 61 eq_refl)
           (valid_score_witness 40 eq_refl) (valid_score_witness 90 eq_refl));
    lia.
Defined.

(** ** The shape of the entries *)

Lemma entries_from_in v env topics :
  forall i entry,
    In entry (entries_from v env i topics) ->
    exists k topic, entry = topic_entry v env k topic.
Proof.
  induction topics as [|topic rest IH]; intros i entry H; cbn [entries_from] in H.
  - destruct H.
  - rewrite alone_single in H. destruct H as [<- | H].
    + now exists i, topic.
    + now apply (IH (S i)).
Qed.

Lemma body_entries v env st body entry :
  fst (search v env st) = Json200 body -> In entry body ->
  exists k topic, entry = topic_entry v env k topic.
Proof.
  intros Hbody Hin.
  destruct (search_store v env st) as [[_ Hno] | (g & raw & _ & _ & E)].
  - now destruct (Hno body).
  - rewrite E in Hbody. injection Hbody as <-.
    now apply (entries_from_in v env (topics_of raw) 0).
Qed.

Lemma sent_keeps_the_defined (entry : Entry) :
  NoDup (keys entry) ->
  forall k, In k (keys entry) ->
            (In k (keys (sent entry)) <-> field k entry <> JUndefined).
Proof.
  unfold keys, sent.
  induction entry as [|[k' x] rest IH]; intros Hnd k Hin; [destruct Hin|].
  simpl in Hnd. inversion Hnd as [|? ? Hnotin Hnd']; subst.
  cbn [filter field snd]. destruct (String.eqb_spec k k') as [->|Hne].
  - destruct x; cbn [is_undefined negb List.map fst In]; split;
      try (intros _; discriminate); try (intros _; now left).
    + intros Hk. exfalso. apply Hnotin.
      apply in_map_iff in Hk. destruct Hk as ([k0 y] & E & Hy).
      apply filter_In in Hy. simpl in E. subst k0.
      apply in_map_iff. exists (k', y). split; [reflexivity | apply Hy].
    + intros H. now destruct H.
  - destruct Hin as [E | Hin]; [simpl in E; congruence|].
    specialize (IH Hnd' k Hin).
    destruct (negb (is_undefined x)); cbn [List.map fst In]; [|exact IH].
    split.
    + intros [E | H]; [congruence | now apply IH].
    + intros H. right. now apply IH.
Qed.

Lemma field_absent (entry : Entry) (k : string) :
  ~ In k (keys entry) -> field k entry = JUndefined.
Proof.
  unfold keys. induction entry as [|[k' x] rest IH]; intros H; [reflexivity|].
  cbn [field]. destruct (String.eqb_spec k k') as [->|Hne].
  - exfalso. apply H. now left.
  - apply IH. intros Hin. apply H. now right.
Qed.

Lemma sent_field (entry : Entry) (k : string) :
  NoDup (keys entry) -> field k (sent entry) = field k entry.
Proof.
  unfold keys, sent. induction entry as [|[k' x] rest IH]; intros Hnd; [reflexivity|].
  simpl in Hnd. inversion Hnd as [|? ? Hnotin Hnd']; subst.
  cbn [filter snd field]. destruct (is_undefined x) eqn:U; cbn [negb field].
  - rewrite (IH Hnd'). destruct (String.eqb_spec k k') as [->|Hne]; [|reflexivity].
    rewrite (field_absent rest k' Hnotin). now destruct x.
  - now rewrite (IH Hnd').
Qed.

Lemma extended_keys_distinct url bi p a m f o :
  NoDup (keys (extended_entry url bi p a m f o)).
Proof. cbn. repeat constructor; simpl; intuition discriminate. Qed.

(** X13.  Every entry handed to [res.json] has the keys of its revision:
    link, idea, probability in the single-probability revisions; in the
    extended revision link, idea, overall for a placeholder (overall the
    number 0) and the seven keys for a real entry.  In the JSON sent a
    property is left out exactly when its value is [undefined]: the link is
    always sent as a string, a placeholder is sent whole, a real entry of
    the extended revision always has a string overall, and idea,
    probability and the sub-scores are missing when the answer lacked
    them. *)
Theorem entries_have_the_keys_of_the_revision (v : Variant) (env : Env)
  (st : Store) (body : list Entry) (entry : Entry) :
  fst (search v env st) = Json200 body ->
  In entry body ->
  (exists url, field "link" (sent entry) = JStr url)
  /\ (forall k, In k (keys entry) ->
                (In k (keys (sent entry)) <-> field k entry <> JUndefined))
  /\ match v with
     | Extended =>
         (keys entry = ["link"; "idea"; "overall"]%string
          /\ field "overall" entry = JNum 0
          /\ sent entry = entry)
         \/ (keys entry = ["link"; "idea"; "pain"; "audience"; "monetization";
                           "feasibility"; "overall"]%string
             /\ exists s, field "overall" (sent entry) = JStr s)
     | _ =>
         keys entry = ["link"; "idea"; "probability"]%string
         /\ ((exists url msg,
                entry = [ ("link", JStr url); ("idea", JStr msg);
                          ("probability", JNum 0) ]%string)
             -> sent entry = entry)
     end.
Proof.
  intros Hbody Hin.
  destruct (body_entries v env st body entry Hbody Hin) as (k & topic & ->).
  destruct (placeholder_or_real v env k topic) as [(msg & E) | (json & _ & E)].
  - rewrite E. unfold placeholder.
    split; [now exists (redditUrl topic)|]. split.
    + apply sent_keeps_the_defined. destruct v; cbn;
        repeat constructor; simpl; intuition discriminate.
    + destruct v; try (split; [reflexivity|]; intros _; reflexivity).
      left. repeat split.
  - destruct v; cbn [real_entry] in E.
    + destruct E as (bi & gp & _ & _ & ->).
      split; [now exists (redditUrl topic)|]. split.
      * apply sent_keeps_the_defined. cbn.
        repeat constructor; simpl; intuition discriminate.
      * split; [reflexivity|]. intros (url & m & E). now injection E as -> -> ->.
    + destruct E as (bi & gp & _ & _ & ->).
      split; [now exists (redditUrl topic)|]. split.
      * apply sent_keeps_the_defined. cbn.
        repeat constructor; simpl; intuition discriminate.
      * split; [reflexivity|]. intros (url & m & E). now injection E as -> -> ->.
    + destruct E as (bi & p & a & m & f & o & _ & _ & _ & _ & _ & _ & ->).
      fold (extended_entry (redditUrl topic) bi p a m f o).
      pose proof (extended_keys_distinct (redditUrl topic) bi p a m f o) as Hnd.
      split; [exists (redditUrl topic); now rewrite sent_field|]. split.
      * now apply sent_keeps_the_defined.
      * right. split; [reflexivity|]. exists o. now rewrite sent_field.
Qed.

Lemma entries_have_the_keys_of_the_revision_witness :
  In "link"%string
     (keys (sent [ ("link", JStr (lit "https://www.reddit.com/r/smallbusiness"));
                   ("idea", JUndefined); ("probability", JUndefined) ]%string))
  /\ ~ In "idea"%string
         (keys (sent [ ("link", JStr (lit "https://www.reddit.com/r/smallbusiness"));
                       ("idea", JUndefined); ("probability", JUndefined) ]%string)).
Proof.
  destruct (entries_have_the_keys_of_the_revision Simple mixed_env empty_store
              (body_of (fst (search Simple mixed_env empty_store)))
              [ ("link", JStr (lit "https://www.reddit.com/r/smallbusiness"));
                ("idea", JUndefined); ("probability", JUndefined) ]%string
              eq_refl (or_intror (or_intror (or_introl eq_refl))))
    as (_ & Hsent & _).
  split.
  - apply (Hsent "link"%string); [left; reflexivity | discriminate].
  - intros Hin. apply (Hsent "idea"%string) in Hin; [|right; left; reflexivity].
    now apply Hin.
Defined.

(** ** Without a working store *)

Lemma rejected_topic v env i topic :
  v <> NoStore ->
  (forall params, exists e, sqlite_insert env i params = Throw e) ->
  nothing_storable v (topic_entry v env i topic).
Proof.
  intros Hv Hrej. unfold nothing_storable, topic_entry.
  destruct v; [now destruct Hv | |];
    run_handler; repeat (break_match; simpl);
    try (left; do 2 eexists; reflexivity);
    try match goal with
        | H : sqlite_insert env i ?params = Ok _ |- _ =>
            destruct (Hrej params) as (e & He); congruence
        end.
  - match goal with
    | H : truthy ?x && truthy ?y = false |- _ =>
        apply andb_false_iff in H; destruct H as [H | H];
        [right; left; exact H | right; right; split; [reflexivity | exact H]]
    end.
  - right. left. assumption.
Qed.

Lemma rejected_store_from v env topics :
  rejects_all env ->
  forall i st, store_from v env i topics st = st.
Proof.
  intros Hrej. induction topics as [|topic rest IH]; intros i st; [reflexivity|].
  cbn [store_from].
  destruct (alone_effect v env i topic st) as [E | (params & now & _ & Hok & _)].
  - rewrite E. apply IH.
  - destruct (Hrej i params) as (e & He). congruence.
Qed.

Lemma no_store_rejects_all : rejects_all (env_after false demo_env).
Proof. intros i params. now exists (no_db "run"). Qed.

(** X14.  When the engine rejects every INSERT, a request leaves the store
    as it was and no entry of its response shows an analysis that passed
    the guard: each is a placeholder or has a falsy idea (or, in the simple
    revision, a falsy probability). *)
Theorem rejecting_store_leaves_only_placeholders (v : Variant) (env : Env)
  (st : Store) :
  rejects_all env ->
  snd (search v env st) = st
  /\ (v <> NoStore ->
      forall body entry,
        fst (search v env st) = Json200 body -> In entry body ->
        nothing_storable v entry).
Proof.
  intros Hrej. split.
  - destruct (search_store v env st) as [[E _] | (g & raw & _ & _ & E)];
      [exact E|]. rewrite E. apply (rejected_store_from v env _ Hrej).
  - intros Hv body entry Hbody Hin.
    destruct (body_entries v env st body entry Hbody Hin) as (k & topic & ->).
    apply rejected_topic; [exact Hv|]. intros params. apply Hrej.
Qed.

Lemma rejecting_store_leaves_only_placeholders_witness :
  snd (search Simple (env_after false demo_env) tie_store) = tie_store.
Proof.
  apply (proj1 (rejecting_store_leaves_only_placeholders Simple
                  (env_after false demo_env) tie_store no_store_rejects_all)).
Defined.

(** X15.  When [open] fails at startup, [db] stays undefined and the server
    still answers: /history with 500, /search with 200 and one entry per
    topic, none of which shows an analysis that passed the guard, and
    nothing is stored. *)
Theorem server_answers_without_a_database (v : Variant) (env : Env)
  (db_all : Engine) (st : Store) (open_db exec_create : Outcome unit)
  (err : JsError) :
  open_db = Throw err ->
  let db_defined := fst (startup open_db exec_create) in
  history (engine_after db_defined db_all) st
  = History500 (lit "Failed to retrieve search history.")
  /\ snd (search v (env_after db_defined env) st) = st
  /\ (forall g raw,
        generateContent env SuggestCall prompt = Ok g ->
        response_text g = Ok raw ->
        exists body,
          fst (search v (env_after db_defined env) st) = Json200 body
          /\ List.length body = List.length (topics_of raw)
          /\ (v <> NoStore -> forall entry, In entry body -> nothing_storable v entry)).
Proof.
  intros ->. cbn [startup fst]. cbv zeta.
  assert (Hrej : rejects_all (env_after false env)).
  { intros i params. now exists (no_db "run"). }
  split; [reflexivity|]. split.
  - destruct (search_store v (env_after false env) st)
      as [[E _] | (g & raw & _ & _ & E)]; [exact E|].
    rewrite E. apply (rejected_store_from v _ _ Hrej).
  - intros g raw Hg Ht.
    rewrite (search_after_suggestion v (env_after false env) st g raw Hg Ht).
    cbn [fst]. eexists. split; [reflexivity|].
    split; [apply entries_from_length|].
    intros Hv entry Hin.
    destruct (entries_from_in v _ _ 0 entry Hin) as (k & topic & ->).
    apply rejected_topic; [exact Hv|]. intros params. now exists (no_db "run").
Qed.

Lemma server_answers_without_a_database_witness :
  history (engine_after false stable_engine) tie_store
  = History500 (lit "Failed to retrieve search history.")
  /\ snd (search Simple (env_after false demo_env) tie_store) = tie_store.
Proof.
  destruct (server_answers_without_a_database Simple demo_env stable_engine
              tie_store (Throw disk_full) (Ok tt) disk_full eq_refl)
    as (Hh & Hs & _).
  split; [exact Hh | exact Hs].
Defined.

Example search_without_database :
  fst (search Simple (env_after false demo_env) empty_store)
  = Json200
      [ analysis_failed Simple (lit "personalfinance");
        analysis_failed Simple (lit "r/Entrepreneur");
        analysis_failed Simple (lit " R/smallbusiness ") ].
Proof. reflexivity. Qed.
